(** * The mint dialog of POAP-APP: validation schema, submit handler, dialog closing

    A shallow embedding of [MintDialog] (the zod schema [schema], the handlers
    [handleClose], [handleCancel] and [onSubmit], and the [disabled] props of
    the rendered controls), with the theorems that settle the specification's
    claims about it. *)

From Stdlib Require Import ZArith QArith List String Ascii Bool Lia.
From Stdlib Require Import DecimalString.
Import ListNotations.
Open Scope Z_scope.

(** ** JavaScript values *)

Module Js.

(** A JavaScript string is a sequence of UTF-16 code units. *)
Definition JsString := list N.

(** A string literal of the source (ASCII). *)
Definition str (s : string) : JsString :=
  map N_of_ascii (list_ascii_of_string s).

(** [s.length] *)
Definition length (s : JsString) : Z := Z.of_nat (List.length s).

(** WhiteSpace and LineTerminator code points of ECMAScript, the ones
    [String.prototype.trim] strips. *)
Definition isWhiteSpace (c : N) : bool :=
  existsb (N.eqb c)
    [ 9; 10; 11; 12; 13; 32; 160; 5760;
      8192; 8193; 8194; 8195; 8196; 8197; 8198; 8199; 8200; 8201; 8202;
      8232; 8233; 8239; 8287; 12288; 65279 ]%N.

Fixpoint trimStart (s : JsString) : JsString :=
  match s with
  | c :: s' => if isWhiteSpace c then trimStart s' else s
  | [] => []
  end.

Definition trimEnd (s : JsString) : JsString := rev (trimStart (rev s)).

(** [s.trim()] *)
Definition trim (s : JsString) : JsString := trimEnd (trimStart s).

(** A number: NaN, an infinity, or a finite value (every finite double is a
    rational). *)
Inductive JsNumber :=
| NaN
| Infinity (negative : bool)
| Finite (q : Q).

(** [Number.isInteger(x)] *)
Definition isInteger (x : JsNumber) : bool :=
  match x with
  | Finite q => (Qnum q mod Zpos (Qden q) =? 0)
  | _ => false
  end.

(** [x <= y], [x > y], [x >= y] and [x < y] against a finite bound [y]. *)
Definition le_bound (x : JsNumber) (y : Z) : bool :=
  match x with
  | NaN => false
  | Infinity negative => negative
  | Finite q => Qle_bool q (inject_Z y)
  end.

Definition gt_bound (x : JsNumber) (y : Z) : bool :=
  match x with
  | NaN => false
  | Infinity negative => negb negative
  | Finite q => negb (Qle_bool q (inject_Z y))
  end.

Definition ge_bound (x : JsNumber) (y : Z) : bool :=
  match x with
  | NaN => false
  | Infinity negative => negb negative
  | Finite q => Qle_bool (inject_Z y) q
  end.

Definition lt_bound (x : JsNumber) (y : Z) : bool :=
  match x with
  | NaN => false
  | Infinity negative => negative
  | Finite q => negb (Qle_bool (inject_Z y) q)
  end.

(** A [Date] object: its time value in milliseconds since the epoch, or an
    Invalid Date (time value NaN). *)
Inductive Date :=
| InvalidDate
| DateAt (ms : Z).

(** [d.getTime()], [None] standing for NaN. *)
Definition getTime (d : Date) : option Z :=
  match d with
  | InvalidDate => None
  | DateAt ms => Some ms
  end.

(** [a >= b] on two dates: both are converted to their time values, and a
    comparison with NaN is false. *)
Definition Date_ge (a b : Date) : bool :=
  match getTime a, getTime b with
  | Some x, Some y => x >=? y
  | _, _ => false
  end.

(** [new Date("1900-01-01")]: midnight UTC, 25567 days before the epoch. *)
Definition Date_1900_01_01 : Z := -2208988800000.

(** The text a template literal inserts for a non-negative integer, in
    decimal digits: the form JavaScript prints below 1e21. *)
Definition Number_toString (n : N) : JsString :=
  str (NilZero.string_of_uint (N.to_uint n)).

(** The text a template literal inserts for a string that may be
    [undefined]. *)
Definition String_orUndefined (v : option JsString) : JsString :=
  match v with
  | Some s => s
  | None => str "undefined"
  end.

(** [hay.includes(needle)] as a proposition. *)
Definition includes (hay needle : JsString) : Prop :=
  exists pre post, hay = pre ++ needle ++ post.

End Js.
Import Js.

(** ** The zod combinators the schema is built from

    Each schema is a parser: given the path of the value inside the record
    and the value, it returns the issues it adds to the parse context and a
    parse result, which is aborted ([INVALID]), dirty (a value, with issues)
    or valid ([OK]). *)

Module Zod.

Inductive IssueCode :=
| invalid_type | invalid_date | invalid_string | too_small | too_big | custom.

(** [message] is [None] where the source gives no message and zod's default
    error map supplies one. *)
Record ZodIssue := mkIssue {
  code : IssueCode;
  path : list string;
  message : option string
}.

Inductive ParseReturn (A : Type) :=
| INVALID
| DIRTY (value : A)
| OK (value : A).
Arguments INVALID {A}.
Arguments DIRTY {A} value.
Arguments OK {A} value.

Definition Parse (A : Type) : Type := list ZodIssue * ParseReturn A.
Definition Schema (I O : Type) : Type := list string -> I -> Parse O.

Definition isValid {A} (r : ParseReturn A) : bool :=
  match r with OK _ => true | _ => false end.

(** [status.dirty()]: a valid result becomes dirty, an aborted one stays. *)
Definition dirty {A} (r : ParseReturn A) : ParseReturn A :=
  match r with
  | OK v => DIRTY v
  | r => r
  end.

Definition setValue {A B} (r : ParseReturn A) (v : B) : ParseReturn B :=
  match r with
  | INVALID => INVALID
  | DIRTY _ => DIRTY v
  | OK _ => OK v
  end.

(** *** string() *)

Inductive StringCheck :=
| str_min (value : Z) (msg : option string)
| str_max (value : Z) (msg : option string)
| str_url (msg : option string)
| str_trim.

Definition nonempty (msg : string) : StringCheck := str_min 1 (Some msg).
Definition max (value : Z) (msg : string) : StringCheck := str_max value (Some msg).
Definition url (msg : string) : StringCheck := str_url (Some msg).
Definition trim : StringCheck := str_trim.

Section ZodString.
(** Whether [new URL(s)] returns (rather than throws): the platform's URL
    parser. *)
Variable URL_canParse : JsString -> bool.

(** The checks run in the order they were chained, each on the data as the
    previous ones left it; [trim] replaces the data. *)
Fixpoint ZodString_checks (checks : list StringCheck) (p : list string)
    (r : ParseReturn JsString) (data : JsString) : Parse JsString :=
  match checks with
  | [] => ([], setValue r data)
  | str_min value msg :: rest =>
      if Js.length data <? value
      then let '(issues, r') := ZodString_checks rest p (dirty r) data in
           (mkIssue too_small p msg :: issues, r')
      else ZodString_checks rest p r data
  | str_max value msg :: rest =>
      if Js.length data >? value
      then let '(issues, r') := ZodString_checks rest p (dirty r) data in
           (mkIssue too_big p msg :: issues, r')
      else ZodString_checks rest p r data
  | str_url msg :: rest =>
      if URL_canParse data
      then ZodString_checks rest p r data
      else let '(issues, r') := ZodString_checks rest p (dirty r) data in
           (mkIssue invalid_string p msg :: issues, r')
  | str_trim :: rest => ZodString_checks rest p r (Js.trim data)
  end.

Definition ZodString (checks : list StringCheck) : Schema JsString JsString :=
  fun p data => ZodString_checks checks p (OK data) data.
End ZodString.

(** *** number() *)

Inductive NumberCheck :=
| num_int (msg : option string)
| num_min (value : Z) (inclusive : bool) (msg : option string)
| num_max (value : Z) (inclusive : bool) (msg : option string).

Definition int : NumberCheck := num_int None.
Definition positive : NumberCheck := num_min 0 false None.
Definition max_n (value : Z) (msg : string) : NumberCheck :=
  num_max value true (Some msg).

Definition failsNumberCheck (check : NumberCheck) (x : JsNumber) : option ZodIssue :=
  match check with
  | num_int msg =>
      if isInteger x then None else Some (mkIssue invalid_type [] msg)
  | num_min value inclusive msg =>
      if (if inclusive then lt_bound x value else le_bound x value)
      then Some (mkIssue too_small [] msg) else None
  | num_max value inclusive msg =>
      if (if inclusive then gt_bound x value else ge_bound x value)
      then Some (mkIssue too_big [] msg) else None
  end.

Definition at_path (p : list string) (i : ZodIssue) : ZodIssue :=
  mkIssue (code i) (p ++ path i) (message i).

Fixpoint ZodNumber_checks (checks : list NumberCheck) (p : list string)
    (r : ParseReturn JsNumber) (x : JsNumber) : Parse JsNumber :=
  match checks with
  | [] => ([], r)
  | check :: rest =>
      match failsNumberCheck check x with
      | Some i =>
          let '(issues, r') := ZodNumber_checks rest p (dirty r) x in
          (at_path p i :: issues, r')
      | None => ZodNumber_checks rest p r x
      end
  end.

(** The input is [undefined] ([None]) or a number; [undefined] and NaN are
    not of parsed type number and abort with an [invalid_type] issue. *)
Definition ZodNumber (checks : list NumberCheck) : Schema (option JsNumber) JsNumber :=
  fun p input =>
    match input with
    | None => ([mkIssue invalid_type p None], INVALID)
    | Some NaN => ([mkIssue invalid_type p None], INVALID)
    | Some x => ZodNumber_checks checks p (OK x) x
    end.

(** *** boolean() *)

(** The record is typed: a boolean field holds a boolean, as a string field
    holds a string, and the type checks of these schemas always pass. *)
Definition ZodBoolean : Schema bool bool := fun _ b => ([], OK b).

(** *** date() with [min] checks *)

Fixpoint ZodDate_checks (mins : list (Z * option string)) (p : list string)
    (r : ParseReturn Date) (t : Z) : Parse Date :=
  match mins with
  | [] => ([], r)
  | (value, msg) :: rest =>
      if t <? value
      then let '(issues, r') := ZodDate_checks rest p (dirty r) t in
           (mkIssue too_small p msg :: issues, r')
      else ZodDate_checks rest p r t
  end.

Definition ZodDate (mins : list (Z * option string)) : Schema Date Date :=
  fun p input =>
    match getTime input with
    | None => ([mkIssue invalid_date p None], INVALID)
    | Some t => ZodDate_checks mins p (OK (DateAt t)) t
    end.

(** *** .nullable() *)
Definition nullable {I O} (inner : Schema I O) : Schema (option I) (option O) :=
  fun p input =>
    match input with
    | None => ([], OK None)
    | Some x =>
        let '(issues, r) := inner p x in
        (issues,
         match r with
         | INVALID => INVALID
         | DIRTY v => DIRTY (Some v)
         | OK v => OK (Some v)
         end)
    end.

(** *** .transform(f)

    The function runs only on a valid inner result; the issues it adds
    through [ctx.addIssue] (code and message; the path is the context's)
    make the result dirty. *)
Definition transform {I O} (inner : Schema I O)
    (f : O -> list (IssueCode * string) * O) : Schema I O :=
  fun p input =>
    let '(issues, base) := inner p input in
    match base with
    | OK v =>
        let '(added, v') := f v in
        (issues ++ map (fun a => mkIssue (fst a) p (Some (snd a))) added,
         match added with [] => OK v' | _ => DIRTY v' end)
    | _ => (issues, base)
    end.

(** *** .refine(check, { path, message })

    The check runs on a valid or dirty inner result, not on an aborted one. *)
Definition refine {I O} (inner : Schema I O) (check : O -> bool)
    (sub : list string) (msg : string) : Schema I O :=
  fun p input =>
    let '(issues, r) := inner p input in
    match r with
    | INVALID => (issues, INVALID)
    | DIRTY v | OK v =>
        if check v then (issues, r)
        else (issues ++ [mkIssue custom (p ++ sub) (Some msg)], dirty r)
    end.

(** *** object({...}) and intersection(left, right)

    An object schema parses every key of its shape, collecting all issues,
    and then merges the results: aborted if one is aborted, dirty if one is
    dirty. [ap] adds one key; [intersection] merges two object results the
    same way. *)
Definition pure {A} (a : A) : Parse A := ([], OK a).

Definition merge {A B} (rf : ParseReturn (A -> B)) (rx : ParseReturn A) : ParseReturn B :=
  match rf, rx with
  | INVALID, _ | _, INVALID => INVALID
  | OK f, OK x => OK (f x)
  | OK f, DIRTY x | DIRTY f, OK x | DIRTY f, DIRTY x => DIRTY (f x)
  end.

Definition ap {A B} (pf : Parse (A -> B)) (px : Parse A) : Parse B :=
  (fst pf ++ fst px, merge (snd pf) (snd px)).
Infix "<*>" := ap (at level 61, left associativity).

Definition key {R I O} (name : string) (get : R -> I) (s : Schema I O)
    (p : list string) (data : R) : Parse O :=
  s (p ++ [name]) (get data).

Definition intersection {I A B C} (left : Schema I A) (right : Schema I B)
    (mergeValues : A -> B -> C) : Schema I C :=
  fun p input => ap (ap (pure mergeValues) (left p input)) (right p input).

(** *** safeParse *)
Inductive SafeParseReturn (A : Type) :=
| success (data : A)
| failure (issues : list ZodIssue).
Arguments success {A} data.
Arguments failure {A} issues.

Definition safeParse {I O} (s : Schema I O) (input : I) : SafeParseReturn O :=
  match s [] input with
  | (_, OK v) => success v
  | (issues, _) => failure issues
  end.

End Zod.
Import Zod.
Infix "<*>" := Zod.ap (at level 61, left associativity).

(** ** The form record and its schema *)

(** [MintFormValues]: the record the form edits and, once validated, hands to
    [onSubmit]. While editing, [tokenCount] may be [undefined] and a date
    [null] (both [None]). *)
Record MintFormValues := mkValues {
  title : JsString;
  description : JsString;
  location : JsString;
  url : JsString;
  tokenCount : option JsNumber;
  isPublic : bool;
  dateStart : option Date;
  dateEnd : option Date
}.

(** The outputs of the two object schemas: each keeps the keys of its shape
    and strips the others. *)
Record CommonOutput := mkCommon {
  out_title : JsString;
  out_description : JsString;
  out_location : JsString;
  out_url : JsString;
  out_tokenCount : JsNumber;
  out_isPublic : bool
}.

Record DatesOutput := mkDates {
  out_dateStart : option Date;
  out_dateEnd : option Date
}.

(** The intersection merges the two outputs, whose keys are disjoint. *)
Definition mergeValues (c : CommonOutput) (d : DatesOutput) : MintFormValues :=
  {| title := out_title c;
     description := out_description c;
     location := out_location c;
     url := out_url c;
     tokenCount := Some (out_tokenCount c);
     isPublic := out_isPublic c;
     dateStart := out_dateStart d;
     dateEnd := out_dateEnd d |}.

Definition defaultValues : MintFormValues :=
  {| title := str "";
     description := str "";
     location := str "";
     url := str "";
     dateStart := None;
     dateEnd := None;
     tokenCount := None;
     isPublic := false |}.

Section Schema.

(** Whether [new URL(s)] returns: the URL parser of the platform the
    component runs on. *)
Variable URL_canParse : JsString -> bool.

Definition title_schema : Schema JsString JsString :=
  ZodString URL_canParse
    [ Zod.nonempty "Title is required";
      Zod.max 256 "Title must be less than 256 characters";
      Zod.trim ].

Definition description_schema : Schema JsString JsString :=
  ZodString URL_canParse
    [ Zod.nonempty "Description is required";
      Zod.max 10000 "Description must be less than 10000 characters" ].

Definition location_schema : Schema JsString JsString :=
  ZodString URL_canParse
    [ Zod.nonempty "Location is required";
      Zod.max 256 "Location must be less than 256 characters" ].

Definition url_schema : Schema JsString JsString :=
  ZodString URL_canParse
    [ Zod.nonempty "URL is required"; Zod.url "URL is invalid"; Zod.trim ].

Definition tokenCount_schema : Schema (option JsNumber) JsNumber :=
  ZodNumber
    [ Zod.int; Zod.positive;
      Zod.max_n 200 "Token count must be less than or equal to 200" ].

Definition isPublic_schema : Schema bool bool := ZodBoolean.

Definition schemaCommon : Schema MintFormValues CommonOutput :=
  fun p data =>
    pure mkCommon
      <*> key "title" title title_schema p data
      <*> key "description" description description_schema p data
      <*> key "location" location location_schema p data
      <*> key "url" url url_schema p data
      <*> key "tokenCount" tokenCount tokenCount_schema p data
      <*> key "isPublic" isPublic isPublic_schema p data.

Definition dateStart_schema : Schema (option Date) (option Date) :=
  transform
    (nullable (ZodDate [(Date_1900_01_01, Some "Date is too far back"%string)]))
    (fun value =>
       match value with
       | None => ([(custom, "Start Date is required"%string)], value)
       | Some _ => ([], value)
       end).

Definition dateEnd_schema : Schema (option Date) (option Date) :=
  transform
    (nullable (ZodDate [(Date_1900_01_01, Some "Date is too far back"%string)]))
    (fun value =>
       match value with
       | None => ([(custom, "End Date is required"%string)], value)
       | Some _ => ([], value)
       end).

Definition schemaDates : Schema MintFormValues DatesOutput :=
  refine
    (fun p data =>
       pure mkDates
         <*> key "dateStart" dateStart dateStart_schema p data
         <*> key "dateEnd" dateEnd dateEnd_schema p data)
    (fun data =>
       match out_dateEnd data, out_dateStart data with
       | Some e, Some s => Date_ge e s
       | _, _ => false
       end)
    ["dateEnd"%string]
    "End Date must be later than Start Date".

Definition schema : Schema MintFormValues MintFormValues :=
  intersection schemaCommon schemaDates mergeValues.

(** The issues the resolver reports for a record, and the issues on one
    field. *)
Definition issues_of (values : MintFormValues) : list ZodIssue :=
  fst (schema [] values).

Definition issue_on (field : string) (i : ZodIssue) : bool :=
  match path i with
  | [f] => String.eqb f field
  | _ => false
  end.

Definition errors_on (field : string) (values : MintFormValues) : list ZodIssue :=
  filter (issue_on field) (issues_of values).

(** [formState.isValid]: the resolver finds no error. *)
Definition isValid (values : MintFormValues) : bool :=
  match safeParse schema values with
  | success _ => true
  | failure _ => false
  end.

End Schema.

(** A stand-in for the platform's URL parser on sample records: it accepts
    the one URL used there, which [new URL] accepts too. *)
Definition sample_url : JsString := str "https://poap.example/badge.png".

Definition sample_canParse (s : JsString) : bool :=
  if list_eq_dec N.eq_dec s sample_url then true else false.

Definition sample_date : Date := DateAt 1700000000000.

Definition sample_values : MintFormValues :=
  {| title := str "Launch party";
     description := str "An evening with the team";
     location := str "Berlin";
     url := sample_url;
     tokenCount := Some (Finite 50);
     isPublic := true;
     dateStart := Some sample_date;
     dateEnd := Some sample_date |}.


(** ** The validation rules, on the values of a record *)

Section Rules.

Variable URL_canParse : JsString -> bool.

(** A string field is non-empty and within its maximum length. *)
Definition within (s : JsString) (maximum : Z) : Prop :=
  1 <= Js.length s <= maximum.

(** [tokenCount] is an integer between 1 and 200. *)
Definition tokenCount_rule (t : option JsNumber) : Prop :=
  exists (q : Q) (n : Z),
    t = Some (Finite q) /\ Qeq q (inject_Z n) /\ 1 <= n <= 200.

(** A date is present and not before 1900-01-01. *)
Definition date_rule (d : option Date) : Prop :=
  exists ms, d = Some (DateAt ms) /\ Date_1900_01_01 <= ms.

(** The cross-field rule: [dateEnd >= dateStart]. *)
Definition order_rule (s e : option Date) : Prop :=
  forall a b, s = Some (DateAt a) -> e = Some (DateAt b) -> a <= b.

(** The per-field rules and the cross-field rule of the specification, read
    on the values of [r] as they are; section 4.1 has title, location and url
    trimmed first ([section_4_1_rules] below). *)
Definition MintFormValues_rules (r : MintFormValues) : Prop :=
  within (title r) 256 /\
  within (description r) 10000 /\
  within (location r) 256 /\
  (1 <= Js.length (url r) /\ URL_canParse (url r) = true) /\
  tokenCount_rule (tokenCount r) /\
  date_rule (dateStart r) /\
  date_rule (dateEnd r) /\
  order_rule (dateStart r) (dateEnd r).

End Rules.

(** What a date field parses to: [null] is dirty (the transform adds the
    "required" issue), an Invalid Date aborts, a date before 1900 is dirty. *)
Definition date_result (d : option Date) : ParseReturn (option Date) :=
  match d with
  | None => DIRTY None
  | Some InvalidDate => INVALID
  | Some (DateAt t) =>
      if t <? Date_1900_01_01 then DIRTY (Some (DateAt t)) else OK (Some (DateAt t))
  end.

(** ** The collaborators of the component *)

(** Modelled from the spec: the enum [DialogIdentifier] and the type of
    [activeDialogAtom] are declared outside the sources at hand; the shared
    signal holds either nothing or the identifier of the dialog to show. *)
Inductive DialogIdentifier :=
| DIALOG_MINT
| DIALOG_OTHER (n : nat).

Record ActiveDialog := mkActiveDialog {
  dialog_type : option DialogIdentifier
}.

(** The object literal [{}] the handlers write to close the dialog. *)
Definition no_dialog : ActiveDialog := {| dialog_type := None |}.

(** Modelled from the spec: the values of [useWeb3()] and [useAuth()], whose
    declarations are outside the sources at hand. An absent account, network
    identifier or session token is [None]. *)
Record Hooks := mkHooks {
  account : option JsString;
  networkId : option Z;
  isAuthenticated : bool;
  jwt : option JsString
}.

(** Truthiness, as [&&] and [Boolean(...)] test it: an empty string and the
    number 0 are falsy, like [null] and [undefined]. *)
Definition String_truthy (s : JsString) : bool :=
  match s with [] => false | _ :: _ => true end.

Definition Number_truthy (n : Z) : bool := negb (n =? 0).

Definition Boolean (v : option JsString) : bool :=
  match v with
  | Some s => String_truthy s
  | None => false
  end.

(** The body of the create-event request. *)
Record MintRequest := mkRequest {
  req_networkId : Z;
  req_tokenCount : option JsNumber;
  req_title : JsString;
  req_description : JsString;
  req_location : JsString;
  req_imageUrl : JsString;
  req_dateStart : option Date;
  req_dateEnd : option Date;
  req_isManaged : bool
}.

Record MintResult := mkResult {
  eventId : N
}.

(** A response whose payload [data] is an object (or any value a property
    can be read from), with its [error] field or without one. *)
Record AxiosResponse := mkResponse {
  data_error : option JsString
}.

(** What the awaited call can reject with: an axios error, whose [response]
    is absent when no response was received, or present with a payload as
    above; an axios error whose response has [data] null or undefined; any
    other [Error]; or a value that is no error object at all: null or
    undefined ([nullish]), or some other value with no [message]. *)
Inductive Thrown :=
| AxiosError (response : option AxiosResponse) (message : JsString)
| AxiosErrorNoData (message : JsString)
| OtherError (message : JsString)
| NotAnError (nullish : bool).

(** [axios.isAxiosError(err)]: an object flagged as an axios error. *)
Definition isAxiosError (err : Thrown) : bool :=
  match err with
  | AxiosError _ _ | AxiosErrorNoData _ => true
  | OtherError _ | NotAnError _ => false
  end.

(** The outcome of evaluating an expression that may throw. *)
Inductive Eval (A : Type) :=
| Value (a : A)
| Raises (err : Thrown).
Arguments Value {A} a.
Arguments Raises {A} err.

(** The [TypeError] of reading a property of null or undefined; the engine
    words its message. *)
Definition TypeError : Thrown := OtherError (str "TypeError").

Inductive Settlement :=
| Resolved (result : MintResult)
| Rejected (err : Thrown).

Inductive Variant := variant_success | variant_error.

(** The calls the handlers make on their collaborators. *)
Inductive Call :=
| setLoading (b : bool)
| setActiveDialog (d : ActiveDialog)
| reset
| API_event_create (token : JsString) (req : MintRequest)
| console_debug
| enqueueSnackbar (message : JsString) (variant : Variant).

(** ** Handlers as programs

    A handler is a sequence of calls that may suspend once at an [await] and
    may throw. *)
Inductive Prog :=
| Return
| Throw (err : Thrown)
| Do (c : Call) (k : Prog)
| Await (k : Settlement -> Prog).

Notation "c ;; k" := (Do c k) (at level 90, right associativity).

(** [await promise]: the continuation receives the result, a rejection is
    thrown at the await. *)
Definition await (k : MintResult -> Prog) : Prog :=
  Await (fun s =>
    match s with
    | Resolved result => k result
    | Rejected err => Throw err
    end).

(** [p] followed by [q]; [q] is skipped when [p] throws. *)
Fixpoint seq (p q : Prog) : Prog :=
  match p with
  | Return => q
  | Throw err => Throw err
  | Do c k => Do c (seq k q)
  | Await k => Await (fun s => seq (k s) q)
  end.

(** [try { body } catch (err) { handler err }] *)
Fixpoint try_catch (body : Prog) (handler : Thrown -> Prog) : Prog :=
  match body with
  | Return => Return
  | Throw err => handler err
  | Do c k => Do c (try_catch k handler)
  | Await k => Await (fun s => try_catch (k s) handler)
  end.

(** [try { body } finally { fin }]: [fin] runs on both exits, and a pending
    exception is thrown again after it. *)
Fixpoint try_finally (body fin : Prog) : Prog :=
  match body with
  | Return => fin
  | Throw err => seq fin (Throw err)
  | Do c k => Do c (try_finally k fin)
  | Await k => Await (fun s => try_finally (k s) fin)
  end.

(** ** The component *)

(** The state the component renders from: the form's values, the [loading]
    flag and the shared active-dialog signal. *)
Record State := mkState {
  values : MintFormValues;
  loading : bool;
  activeDialog : ActiveDialog
}.

(** [open], which the effect keeps equal to
    [activeDialog.type === DialogIdentifier.DIALOG_MINT]. *)
Definition open (st : State) : bool :=
  match dialog_type (activeDialog st) with
  | Some DIALOG_MINT => true
  | _ => false
  end.

(** The component in time: its state, the calls made so far, and the
    continuation of a handler suspended at its [await], if any. *)
Record Machine := mkMachine {
  state : State;
  trace : list Call;
  suspended : option (Settlement -> Prog)
}.

(** The effect of one call on the state. [reset()] restores the default
    values; where the default token count is [undefined], the emptied number
    input reads as NaN, and the schema rejects the one as the other. *)
Definition perform (c : Call) (st : State) : State :=
  match c with
  | setLoading b =>
      {| values := values st; loading := b; activeDialog := activeDialog st |}
  | setActiveDialog d =>
      {| values := values st; loading := loading st; activeDialog := d |}
  | reset =>
      {| values := defaultValues; loading := loading st;
         activeDialog := activeDialog st |}
  | _ => st
  end.

(** Running a handler until it returns, throws or suspends. *)
Fixpoint exec (p : Prog) (m : Machine) : Machine :=
  match p with
  | Return => m
  | Throw _ => m
  | Do c k =>
      exec k {| state := perform c (state m); trace := trace m ++ [c];
                suspended := suspended m |}
  | Await k => {| state := state m; trace := trace m; suspended := Some k |}
  end.

(** The awaited call settles: the suspended handler runs on. *)
Definition settle (s : Settlement) (m : Machine) : Machine :=
  match suspended m with
  | Some k =>
      exec (k s) {| state := state m; trace := trace m; suspended := None |}
  | None => m
  end.

(** [reason === s] for a reason that may be [undefined]. *)
Definition reason_is (reason : option string) (s : string) : bool :=
  match reason with
  | Some r => String.eqb r s
  | None => false
  end.

Definition handleClose (reason : option string) : Prog :=
  if reason_is reason "backdropClick"
  then Return
  else setActiveDialog no_dialog ;; Return.

Definition handleCancel : Prog :=
  reset ;; setActiveDialog no_dialog ;; Return.

(** [err.response?.data.error]: the optional chain guards [response] only.
    It is [undefined] when there is no response or the payload has no [error]
    field, and reading [error] of a null or undefined [data] throws. *)
Definition response_data_error (err : Thrown) : Eval (option JsString) :=
  match err with
  | AxiosError (Some r) _ => Value (data_error r)
  | AxiosErrorNoData _ => Raises TypeError
  | AxiosError None _ | OtherError _ | NotAnError _ => Value None
  end.

(** [(err as Error).message]: the cast checks nothing; reading [message] of
    null or undefined throws, and of a value without one is [undefined]. *)
Definition Error_message (err : Thrown) : Eval (option JsString) :=
  match err with
  | AxiosError _ message | AxiosErrorNoData message | OtherError message =>
      Value (Some message)
  | NotAnError true => Raises TypeError
  | NotAnError false => Value None
  end.

Definition onSubmit (h : Hooks) (v : MintFormValues) : Prog :=
  setLoading true ;;
  try_finally
    (try_catch
       match account h, networkId h, jwt h with
       | Some a, Some n, Some token =>
           if String_truthy a && Number_truthy n && String_truthy token
           then
             API_event_create token
               {| req_networkId := n;
                  req_tokenCount := tokenCount v;
                  req_title := title v;
                  req_description := description v;
                  req_location := location v;
                  req_imageUrl := url v;
                  req_dateStart := dateStart v;
                  req_dateEnd := dateEnd v;
                  req_isManaged := negb (isPublic v) |} ;;
             await (fun result =>
               console_debug ;;
               enqueueSnackbar
                 (str "Mint successful: Event #"
                    ++ Number_toString (eventId result))
                 variant_success ;;
               reset ;;
               Return)
           else Return
       | _, _, _ => Return
       end
       (fun err =>
          console_debug ;;
          if isAxiosError err
          then
            match response_data_error err with
            | Value v =>
                enqueueSnackbar (str "Mint failed: " ++ String_orUndefined v)
                  variant_error ;;
                Return
            | Raises e => Throw e
            end
          else
            match Error_message err with
            | Value v =>
                enqueueSnackbar (str "Mint failed: " ++ String_orUndefined v)
                  variant_error ;;
                Return
            | Raises e => Throw e
            end))
    (setLoading false ;; setActiveDialog no_dialog ;; Return).

(** The texts of the two notifications, for the statements below. *)
Definition mint_successful (result : MintResult) : JsString :=
  str "Mint successful: Event #" ++ Number_toString (eventId result).

(** The text of the error notification, when the [catch] block gets to
    show one: [None] when building the text throws. *)
Definition failure_text (err : Thrown) : option JsString :=
  match (if isAxiosError err then response_data_error err
         else Error_message err) with
  | Value v => Some (str "Mint failed: " ++ String_orUndefined v)
  | Raises _ => None
  end.

(** The same text, empty where there is none. *)
Definition mint_failed (err : Thrown) : JsString :=
  match failure_text err with
  | Some text => text
  | None => []
  end.

(** The error notification of a rejection, if it gets one. *)
Definition failure_notification (err : Thrown) : list Call :=
  match failure_text err with
  | Some text => [enqueueSnackbar text variant_error]
  | None => []
  end.

(** ** What is rendered, and what the user can do with it *)

Inductive Field :=
| field_title | field_description | field_location | field_url
| field_dateStart | field_dateEnd | field_tokenCount | field_isPublic.

Inductive Control :=
| CloseIconButton
| FormField (f : Field)
| CancelButton
| CreateButton.

Section Component.

Variable URL_canParse : JsString -> bool.

(** The [disabled] prop of each control. *)
Definition disabled (h : Hooks) (st : State) (c : Control) : bool :=
  match c with
  | CloseIconButton => loading st
  | FormField _ => loading st
  | CancelButton => loading st
  | CreateButton =>
      loading st || negb (Boolean (account h))
      || negb (isValid URL_canParse (values st)) || negb (isAuthenticated h)
  end.

(** [handleSubmit(onSubmit)]: the resolver validates the form's values and the
    handler is called with the parsed values, or not at all. *)
Definition handleSubmit (onValid : MintFormValues -> Prog) (st : State) : Prog :=
  match safeParse (schema URL_canParse) (values st) with
  | success v => onValid v
  | failure _ => Return
  end.

(** A change of one field's value. *)
Inductive Change :=
| change_title (s : JsString)
| change_description (s : JsString)
| change_location (s : JsString)
| change_url (s : JsString)
| change_dateStart (d : option Date)
| change_dateEnd (d : option Date)
| change_tokenCount (x : option JsNumber)
| change_isPublic (b : bool).

Definition field_of (c : Change) : Field :=
  match c with
  | change_title _ => field_title
  | change_description _ => field_description
  | change_location _ => field_location
  | change_url _ => field_url
  | change_dateStart _ => field_dateStart
  | change_dateEnd _ => field_dateEnd
  | change_tokenCount _ => field_tokenCount
  | change_isPublic _ => field_isPublic
  end.

Definition apply_change (c : Change) (r : MintFormValues) : MintFormValues :=
  match c with
  | change_title s =>
      mkValues s (description r) (location r) (url r) (tokenCount r)
        (isPublic r) (dateStart r) (dateEnd r)
  | change_description s =>
      mkValues (title r) s (location r) (url r) (tokenCount r)
        (isPublic r) (dateStart r) (dateEnd r)
  | change_location s =>
      mkValues (title r) (description r) s (url r) (tokenCount r)
        (isPublic r) (dateStart r) (dateEnd r)
  | change_url s =>
      mkValues (title r) (description r) (location r) s (tokenCount r)
        (isPublic r) (dateStart r) (dateEnd r)
  | change_dateStart d =>
      mkValues (title r) (description r) (location r) (url r) (tokenCount r)
        (isPublic r) d (dateEnd r)
  | change_dateEnd d =>
      mkValues (title r) (description r) (location r) (url r) (tokenCount r)
        (isPublic r) (dateStart r) d
  | change_tokenCount x =>
      mkValues (title r) (description r) (location r) (url r) x
        (isPublic r) (dateStart r) (dateEnd r)
  | change_isPublic b =>
      mkValues (title r) (description r) (location r) (url r) (tokenCount r)
        b (dateStart r) (dateEnd r)
  end.

(** What the user can do to the rendered dialog. *)
Inductive Gesture :=
| EscapeKeyDown
| BackdropClick
| Click (c : Control)
| Input (c : Change).

(** The [Dialog] is rendered with [disableEscapeKeyDown]. *)
Definition disableEscapeKeyDown : bool := true.

(** The [onClick] of each control. *)
Definition onClick (h : Hooks) (st : State) (c : Control) : Prog :=
  match c with
  | CloseIconButton => handleClose None
  | CancelButton => handleCancel
  | CreateButton => handleSubmit (onSubmit h) st
  | FormField _ => Return
  end.

(** How a gesture reaches the handlers. The dialog's content exists only
    while it is open; the [Dialog] calls [onClose] with the reason
    ["escapeKeyDown"] unless [disableEscapeKeyDown] is set, and with
    ["backdropClick"] on a click outside; a disabled control ignores the
    gesture. *)
Definition dispatch (h : Hooks) (g : Gesture) (m : Machine) : Machine :=
  if negb (open (state m)) then m
  else
    match g with
    | EscapeKeyDown =>
        if disableEscapeKeyDown then m
        else exec (handleClose (Some "escapeKeyDown"%string)) m
    | BackdropClick => exec (handleClose (Some "backdropClick"%string)) m
    | Click c =>
        if disabled h (state m) c then m
        else exec (onClick h (state m) c) m
    | Input c =>
        if disabled h (state m) (FormField (field_of c)) then m
        else {| state := {| values := apply_change c (values (state m));
                            loading := loading (state m);
                            activeDialog := activeDialog (state m) |};
                trace := trace m;
                suspended := suspended m |}
    end.

(** A submit invocation: [handleSubmit(onSubmit)] called on the current
    values. *)
Definition submit (h : Hooks) (m : Machine) : Machine :=
  exec (handleSubmit (onSubmit h) (state m)) m.

End Component.

(** The guard of [onSubmit]: [account && networkId && jwt]. *)
Definition canCreate (h : Hooks) : bool :=
  match account h, networkId h, jwt h with
  | Some a, Some n, Some token =>
      String_truthy a && Number_truthy n && String_truthy token
  | _, _, _ => false
  end.

(** A sequence of gestures, each under the hooks' values of its moment. *)
Definition run_gestures (URL_canParse : JsString -> bool)
    (gs : list (Hooks * Gesture)) (m : Machine) : Machine :=
  fold_left (fun m g => dispatch URL_canParse (fst g) (snd g) m) gs m.

(** What can happen to the component: a gesture, the settlement of the
    awaited call, or another component writing the shared signal. *)
Inductive Step :=
| step_gesture (h : Hooks) (g : Gesture)
| step_settle (s : Settlement)
| step_signal (d : ActiveDialog).

Definition step (URL_canParse : JsString -> bool) (e : Step) (m : Machine) : Machine :=
  match e with
  | step_gesture h g => dispatch URL_canParse h g m
  | step_settle s => settle s m
  | step_signal d =>
      {| state := {| values := values (state m); loading := loading (state m);
                     activeDialog := d |};
         trace := trace m;
         suspended := suspended m |}
  end.

(** The component when it is mounted. *)
Definition initial (d : ActiveDialog) : Machine :=
  {| state := {| values := defaultValues; loading := false; activeDialog := d |};
     trace := [];
     suspended := None |}.

(** The machines the component can be in. *)
Inductive reachable (URL_canParse : JsString -> bool) : Machine -> Prop :=
| reach_initial d : reachable URL_canParse (initial d)
| reach_step e m :
    reachable URL_canParse m -> reachable URL_canParse (step URL_canParse e m).

(** A continuation that, however the call settles, suspends no more, clears
    the loading flag and empties the active-dialog signal. *)
Definition closes (k : Settlement -> Prog) : Prop :=
  forall s m,
    suspended (exec (k s) m) = suspended m
    /\ loading (state (exec (k s) m)) = false
    /\ activeDialog (state (exec (k s) m)) = no_dialog.

(** While a handler is suspended at its [await], the loading flag is set and
    the handler will close the dialog when it runs on. *)
Definition in_flight_inv (m : Machine) : Prop :=
  match suspended m with
  | None => True
  | Some k => loading (state m) = true /\ closes k
  end.

(** The calls of a trace that are create-event requests. *)
Definition requests (t : list Call) : list Call :=
  filter (fun c => match c with API_event_create _ _ => true | _ => false end) t.

(** The notifications of a trace. *)
Definition notifications (t : list Call) : list Call :=
  filter (fun c => match c with enqueueSnackbar _ _ => true | _ => false end) t.

(** The form resets of a trace. *)
Definition resets (t : list Call) : list Call :=
  filter (fun c => match c with reset => true | _ => false end) t.

(** Setting one field of a record, as an edit of the form does. *)
Definition set_tokenCount (t : option JsNumber) (r : MintFormValues) : MintFormValues :=
  apply_change (change_tokenCount t) r.


(** The number with integer value [n]. *)
Definition number (n : Z) : option JsNumber := Some (Finite (inject_Z n)).

(** Sample hooks and machines. *)
Definition sample_hooks : Hooks :=
  {| account := Some (str "rPoapUser");
     networkId := Some 1;
     isAuthenticated := true;
     jwt := Some (str "session-token") |}.

Definition sample_machine : Machine :=
  {| state := {| values := sample_values; loading := false;
                 activeDialog := {| dialog_type := Some DIALOG_MINT |} |};
     trace := [];
     suspended := None |}.

(** ** Issues, parsed values and sample records named in the statements *)

(** An issue raised at path [p]. *)
Definition on_path (p : list string) (i : ZodIssue) : Prop := path i = p.

(** The issue a date field's transform adds for [null]. *)
Definition required_issue (p : list string) (msg : string) : ZodIssue :=
  mkIssue custom p (Some msg).

(** The issue of a date before 1900-01-01. *)
Definition too_far_back (p : list string) : ZodIssue :=
  mkIssue too_small p (Some "Date is too far back"%string).

(** The issue of the cross-field refinement. *)
Definition order_issue : ZodIssue :=
  mkIssue custom ["dateEnd"%string]
    (Some "End Date must be later than Start Date"%string).

(** The issues of one date field, by its value. *)
Definition date_issues (msg : string) (p : list string) (d : option Date) : list ZodIssue :=
  match d with
  | None => [required_issue p msg]
  | Some InvalidDate => [mkIssue invalid_date p None]
  | Some (DateAt t) => if t <? Date_1900_01_01 then [too_far_back p] else []
  end.

(** The ordering issue is raised unless a date is an Invalid Date (the dates
    object is aborted) or both dates are present and in order. *)
Definition order_issues (s e : option Date) : list ZodIssue :=
  match s, e with
  | Some InvalidDate, _ | _, Some InvalidDate => []
  | Some (DateAt a), Some (DateAt b) => if b >=? a then [] else [order_issue]
  | _, _ => [order_issue]
  end.

(** The issue of an empty string field. *)
Definition required (field : string) (msg : string) : ZodIssue :=
  mkIssue too_small [field] (Some msg).

(** The parsed values of an accepted record: [title] and [url] trimmed, the
    rest as entered. *)
Definition parsed (r : MintFormValues) : MintFormValues :=
  apply_change (change_url (Js.trim (url r)))
    (apply_change (change_title (Js.trim (title r))) r).

(** The record as section 4.1 of the specification has it checked: title,
    location and url trimmed of surrounding white space. *)
Definition trimmed_for_checking (r : MintFormValues) : MintFormValues :=
  apply_change (change_location (Js.trim (location r))) (parsed r).

(** The rules of section 4.1 as it words them: the per-field rules and the
    cross-field rule, with title, location and url trimmed before they are
    checked. *)
Definition section_4_1_rules (URL_canParse : JsString -> bool)
    (r : MintFormValues) : Prop :=
  MintFormValues_rules URL_canParse (trimmed_for_checking r).

(** A sample record whose location is 256 letters followed by a space. *)
Definition long_location_values : MintFormValues :=
  apply_change (change_location (repeat 120%N 256 ++ [32%N])) sample_values.

(** Sample records: a location, or a title, of two spaces; a start date one
    day after the end date; and the sample machine with its submission in
    flight. *)
Definition blank_location_values : MintFormValues :=
  apply_change (change_location (str "  ")) sample_values.

Definition blank_title_values : MintFormValues :=
  apply_change (change_title (str "  ")) sample_values.


Definition in_flight_machine : Machine :=
  submit sample_canParse sample_hooks sample_machine.

(** ** Further notions: what the fields show, what a handler leaves uncaught *)

(** The issue of a string longer than its maximum, and of a url the platform
    does not parse. *)
Definition too_long (field : string) (msg : string) : ZodIssue :=
  mkIssue too_big [field] (Some msg).

Definition invalid_url : ZodIssue :=
  mkIssue invalid_string ["url"%string] (Some "URL is invalid"%string).

(** The issue of a value that is not a number, or not an integer, and of a
    number that is not positive; zod words their messages. *)
Definition not_a_number : ZodIssue :=
  mkIssue invalid_type ["tokenCount"%string] None.

Definition not_positive : ZodIssue :=
  mkIssue too_small ["tokenCount"%string] None.

Definition too_many : ZodIssue :=
  mkIssue too_big ["tokenCount"%string]
    (Some "Token count must be less than or equal to 200"%string).

(** The error [zodResolver(schema)] returns for a field when it validates a
    record: the first issue of the field's path. The form stores it as
    [errors[field]] when it validates that field (on a change of that field
    and on submit); it does not refresh the errors of the other fields. *)
Definition resolver_error (URL_canParse : JsString -> bool) (field : string)
    (r : MintFormValues) : option ZodIssue :=
  hd_error (errors_on URL_canParse field r).

(** A string with no white space at its start, and at its end. *)
Definition starts_clean (s : JsString) : Prop :=
  match s with
  | c :: _ => isWhiteSpace c = false
  | [] => True
  end.

Definition ends_clean (s : JsString) : Prop := starts_clean (rev s).

(** A string made of white space only. *)
Definition blank (s : JsString) : Prop :=
  Forall (fun c => isWhiteSpace c = true) s.

(** The exception a handler lets escape, when its awaited call settles as
    [s]: the rejection of the promise the handler returns. *)
Fixpoint uncaught (p : Prog) (s : Settlement) : option Thrown :=
  match p with
  | Return => None
  | Throw err => Some err
  | Do _ k => uncaught k s
  | Await k => uncaught (k s) s
  end.

(** The [console.debug] calls of a trace. *)
Definition debug_logs (t : list Call) : list Call :=
  filter (fun c => match c with console_debug => true | _ => false end) t.

(** A continuation that, however the call settles, suspends no more, clears
    the loading flag, issues no further request, logs once and notifies the
    user at most once. *)
Definition answers (k : Settlement -> Prog) : Prop :=
  forall s m,
    suspended (exec (k s) m) = suspended m
    /\ loading (state (exec (k s) m)) = false
    /\ requests (trace (exec (k s) m)) = requests (trace m)
    /\ List.length (debug_logs (trace (exec (k s) m)))
       = S (List.length (debug_logs (trace m)))
    /\ (List.length (notifications (trace (exec (k s) m)))
        <= S (List.length (notifications (trace m))))%nat.

(** The bookkeeping of requests, logs and notifications: every request that
    has settled has been logged once, one request at most is outstanding,
    and the notifications are no more than the settled requests. *)
Definition accounted (m : Machine) : Prop :=
  match suspended m with
  | None =>
      loading (state m) = false
      /\ List.length (requests (trace m)) = List.length (debug_logs (trace m))
      /\ (List.length (notifications (trace m))
          <= List.length (debug_logs (trace m)))%nat
  | Some k =>
      loading (state m) = true
      /\ answers k
      /\ List.length (requests (trace m))
         = S (List.length (debug_logs (trace m)))
      /\ (List.length (notifications (trace m))
          <= List.length (debug_logs (trace m)))%nat
  end.

(** Another component opens the mint dialog again. *)
Definition reopen (m : Machine) : Machine :=
  {| state := {| values := values (state m); loading := loading (state m);
                 activeDialog := {| dialog_type := Some DIALOG_MINT |} |};
     trace := trace m;
     suspended := suspended m |}.

(** The issue of a [Date] object that holds no date. *)
Definition not_a_date (field : string) : ZodIssue :=
  mkIssue invalid_date [field] None.

(** Sample records: a title with white space around it, a token count of one
    half, an Invalid Date as start date, no start date. *)
Definition padded_title_values : MintFormValues :=
  apply_change (change_title (str "  Launch party ")) sample_values.

Definition half_token_values : MintFormValues :=
  set_tokenCount (Some (Finite (1 # 2))) sample_values.

Definition invalid_start_values : MintFormValues :=
  apply_change (change_dateStart (Some InvalidDate)) sample_values.

Definition no_start_values : MintFormValues :=
  apply_change (change_dateStart None) sample_values.

(** A run of the component from a machine. *)
Definition run_steps (URL_canParse : JsString -> bool) (es : list Step)
    (m : Machine) : Machine :=
  fold_left (fun m e => step URL_canParse e m) es m.

(** A sample run: the dialog is mounted open, the user fills in the form and
    clicks Create. *)
Definition sample_run : list Step :=
  [ step_gesture sample_hooks (Input (change_title (title sample_values)));
    step_gesture sample_hooks (Input (change_description (description sample_values)));
    step_gesture sample_hooks (Input (change_location (location sample_values)));
    step_gesture sample_hooks (Input (change_url (url sample_values)));
    step_gesture sample_hooks (Input (change_dateStart (dateStart sample_values)));
    step_gesture sample_hooks (Input (change_dateEnd (dateEnd sample_values)));
    step_gesture sample_hooks (Input (change_tokenCount (tokenCount sample_values)));
    step_gesture sample_hooks (Input (change_isPublic (isPublic sample_values)));
    step_gesture sample_hooks (Click CreateButton) ].

Definition sample_reached : Machine :=
  run_steps sample_canParse sample_run
    (initial {| dialog_type := Some DIALOG_MINT |}).

(** * Proofs *)

(** ** Validation: field by field *)

Example sample_values_valid : isValid sample_canParse sample_values = true.
Proof. vm_compute. reflexivity. Qed.

Lemma isValid_merge {A B} (rf : ParseReturn (A -> B)) (rx : ParseReturn A) :
  Zod.isValid (merge rf rx) = Zod.isValid rf && Zod.isValid rx.
Proof. destruct rf, rx; reflexivity. Qed.

Lemma isValid_ap {A B} (pf : Parse (A -> B)) (px : Parse A) :
  Zod.isValid (snd (pf <*> px)) = Zod.isValid (snd pf) && Zod.isValid (snd px).
Proof. unfold ap; simpl. apply isValid_merge. Qed.

Lemma snd_ap {A B} (pf : Parse (A -> B)) (px : Parse A) :
  snd (pf <*> px) = merge (snd pf) (snd px).
Proof. reflexivity. Qed.

Lemma fst_ap {A B} (pf : Parse (A -> B)) (px : Parse A) :
  fst (pf <*> px) = fst pf ++ fst px.
Proof. reflexivity. Qed.

Section FieldLemmas.

Variable URL_canParse : JsString -> bool.

Lemma title_schema_valid p s :
  Zod.isValid (snd (title_schema URL_canParse p s))
  = (1 <=? Js.length s) && (Js.length s <=? 256).
Proof.
  unfold title_schema, ZodString. simpl.
  destruct (Js.length s <? 1) eqn:E1, (Js.length s >? 256) eqn:E2; simpl; lia.
Qed.

Lemma title_schema_value p s v :
  snd (title_schema URL_canParse p s) = OK v -> v = Js.trim s.
Proof.
  unfold title_schema, ZodString. simpl.
  destruct (Js.length s <? 1), (Js.length s >? 256); simpl; congruence.
Qed.

Lemma description_schema_valid p s :
  Zod.isValid (snd (description_schema URL_canParse p s))
  = (1 <=? Js.length s) && (Js.length s <=? 10000).
Proof.
  unfold description_schema, ZodString. simpl.
  destruct (Js.length s <? 1) eqn:E1, (Js.length s >? 10000) eqn:E2; simpl; lia.
Qed.

Lemma location_schema_valid p s :
  Zod.isValid (snd (location_schema URL_canParse p s))
  = (1 <=? Js.length s) && (Js.length s <=? 256).
Proof.
  unfold location_schema, ZodString. simpl.
  destruct (Js.length s <? 1) eqn:E1, (Js.length s >? 256) eqn:E2; simpl; lia.
Qed.

Lemma url_schema_valid p s :
  Zod.isValid (snd (url_schema URL_canParse p s))
  = (1 <=? Js.length s) && URL_canParse s.
Proof.
  unfold url_schema, ZodString. simpl.
  destruct (Js.length s <? 1) eqn:E1, (URL_canParse s) eqn:E2; simpl; lia.
Qed.

End FieldLemmas.

(** Integral values, and comparisons of an integral value with a bound. *)
Lemma isInteger_iff q :
  isInteger (Finite q) = true <-> exists n, Qeq q (inject_Z n).
Proof.
  unfold isInteger, Qeq. simpl. rewrite Z.eqb_eq. split.
  - intros H. exists (Qnum q / Zpos (Qden q)).
    apply Z.div_exact in H; lia.
  - intros [n H]. rewrite Z.mul_1_r in H. rewrite H. apply Z.mod_mul. lia.
Qed.

Lemma Qle_bool_inject_l q n b :
  Qeq q (inject_Z n) -> Qle_bool q (inject_Z b) = (n <=? b).
Proof.
  intros H. apply eq_true_iff_eq. rewrite Qle_bool_iff, H, <- Zle_Qle.
  symmetry. apply Z.leb_le.
Qed.

Lemma tokenCount_schema_finite p q :
  Zod.isValid (snd (tokenCount_schema p (Some (Finite q))))
  = isInteger (Finite q) && negb (Qle_bool q (inject_Z 0)) && Qle_bool q (inject_Z 200).
Proof.
  unfold tokenCount_schema, ZodNumber. cbn -[isInteger Qle_bool inject_Z].
  destruct (isInteger (Finite q)), (Qle_bool q (inject_Z 0)),
    (Qle_bool q (inject_Z 200)); reflexivity.
Qed.

Lemma tokenCount_schema_valid p t :
  Zod.isValid (snd (tokenCount_schema p t)) = true <-> tokenCount_rule t.
Proof.
  unfold tokenCount_rule. destruct t as [[| neg | q] |].
  - split; [discriminate | intros (q & n & H & _); discriminate].
  - split; [| intros (q & n & H & _); discriminate].
    destruct neg; discriminate.
  - rewrite tokenCount_schema_finite, !andb_true_iff, isInteger_iff. split.
    + intros [[[n Hn] Hpos] Hmax]. exists q, n.
      rewrite (Qle_bool_inject_l q n) in Hpos, Hmax by exact Hn.
      repeat split; auto; lia.
    + intros (q' & n & Hq & Hn & Hrange). injection Hq as <-.
      rewrite !(Qle_bool_inject_l q n) by exact Hn.
      repeat split; [exists n; exact Hn | lia | lia].
  - split; [discriminate | intros (q & n & H & _); discriminate].
Qed.

Lemma snd_refine {I O} (inner : Schema I O) check sub msg p input :
  snd (refine inner check sub msg p input)
  = match snd (inner p input) with
    | INVALID => INVALID
    | DIRTY v => DIRTY v
    | OK v => if check v then OK v else DIRTY v
    end.
Proof.
  unfold refine. destruct (inner p input) as [issues [| v | v]]; simpl;
    try destruct (check v); reflexivity.
Qed.

Lemma dateStart_schema_result p d : snd (dateStart_schema p d) = date_result d.
Proof.
  unfold dateStart_schema, transform, nullable, ZodDate, date_result.
  destruct d as [[| t] |]; try reflexivity.
  cbn -[Date_1900_01_01 Z.ltb]. destruct (t <? Date_1900_01_01); reflexivity.
Qed.

Lemma dateEnd_schema_result p d : snd (dateEnd_schema p d) = date_result d.
Proof.
  unfold dateEnd_schema, transform, nullable, ZodDate, date_result.
  destruct d as [[| t] |]; try reflexivity.
  cbn -[Date_1900_01_01 Z.ltb]. destruct (t <? Date_1900_01_01); reflexivity.
Qed.

Lemma date_result_valid d :
  Zod.isValid (date_result d) = true <-> date_rule d.
Proof.
  unfold date_rule, date_result. destruct d as [[| t] |].
  - split; [discriminate | intros [ms [H _]]; discriminate].
  - destruct (t <? Date_1900_01_01) eqn:E; simpl; split;
      try discriminate; try reflexivity.
    + intros [ms [H Hms]]. injection H as <-. lia.
    + intros _. exists t. split; [reflexivity | lia].
  - split; [discriminate | intros [ms [H _]]; discriminate].
Qed.

Lemma date_result_OK d v : date_result d = OK v -> v = d.
Proof.
  unfold date_result. destruct d as [[| t] |]; try discriminate.
  destruct (t <? Date_1900_01_01); congruence.
Qed.

Lemma schemaDates_valid p r :
  Zod.isValid (snd (schemaDates p r)) = true
  <-> date_rule (dateStart r) /\ date_rule (dateEnd r)
      /\ order_rule (dateStart r) (dateEnd r).
Proof.
  unfold schemaDates. rewrite snd_refine. unfold key, ap, pure; simpl.
  rewrite dateStart_schema_result, dateEnd_schema_result.
  rewrite <- !date_result_valid.
  destruct (date_result (dateStart r)) as [| s | s] eqn:Es,
           (date_result (dateEnd r)) as [| e | e] eqn:Ee; simpl;
    try (split; [discriminate | intros (H1 & H2 & _); discriminate]).
  apply date_result_OK in Es as Hs, Ee as He. subst s e.
  unfold order_rule.
  destruct (dateStart r) as [[| a] |], (dateEnd r) as [[| b] |];
    try discriminate. unfold Date_ge. simpl.
  destruct (b >=? a) eqn:E; rewrite Z.geb_leb in E; simpl; split;
    try discriminate; try reflexivity.
  - intros _. repeat split. intros a' b' Ha Hb.
    injection Ha as <-. injection Hb as <-. lia.
  - intros (_ & _ & H). specialize (H a b eq_refl eq_refl). lia.
Qed.

(** ** The schema against the rules *)

Lemma isValid_true_iff URL_canParse r :
  isValid URL_canParse r = true
  <-> Zod.isValid (snd (schema URL_canParse [] r)) = true.
Proof.
  unfold isValid, safeParse.
  destruct (schema URL_canParse [] r) as [issues [| v | v]]; simpl;
    split; congruence.
Qed.

Lemma schema_valid_iff URL_canParse r :
  isValid URL_canParse r = true <-> MintFormValues_rules URL_canParse r.
Proof.
  rewrite isValid_true_iff. unfold schema, intersection.
  rewrite !isValid_ap. simpl Zod.isValid at 1. rewrite andb_true_l.
  unfold schemaCommon. rewrite !isValid_ap. unfold key.
  rewrite title_schema_valid, description_schema_valid, location_schema_valid,
    url_schema_valid.
  simpl (Zod.isValid (snd (pure mkCommon))).
  simpl (Zod.isValid (snd (isPublic_schema _ _))).
  rewrite !andb_true_iff, tokenCount_schema_valid, schemaDates_valid.
  unfold MintFormValues_rules, within.
  rewrite !Z.leb_le. tauto.
Qed.

(** ** Where the issues of a record come from *)

Lemma ZodString_checks_paths U checks p r data :
  Forall (on_path p) (fst (ZodString_checks U checks p r data)).
Proof.
  revert r data. induction checks as [| check rest IH]; intros r data; simpl.
  - constructor.
  - destruct check as [value msg | value msg | msg |].
    + destruct (Js.length data <? value); [| apply IH].
      specialize (IH (dirty r) data).
      destruct (ZodString_checks U rest p (dirty r) data). simpl in *.
      constructor; [reflexivity | exact IH].
    + destruct (Js.length data >? value); [| apply IH].
      specialize (IH (dirty r) data).
      destruct (ZodString_checks U rest p (dirty r) data). simpl in *.
      constructor; [reflexivity | exact IH].
    + destruct (U data); [apply IH |].
      specialize (IH (dirty r) data).
      destruct (ZodString_checks U rest p (dirty r) data). simpl in *.
      constructor; [reflexivity | exact IH].
    + apply IH.
Qed.

Lemma failsNumberCheck_path check x i :
  failsNumberCheck check x = Some i -> path i = [].
Proof.
  destruct check as [msg | value [|] msg | value [|] msg]; simpl;
    match goal with |- context [if ?c then _ else _] => destruct c end;
    intros H; inversion H; reflexivity.
Qed.

Lemma ZodNumber_checks_paths checks p r x :
  Forall (on_path p) (fst (ZodNumber_checks checks p r x)).
Proof.
  revert r. induction checks as [| check rest IH]; intros r; simpl.
  - constructor.
  - destruct (failsNumberCheck check x) as [i |] eqn:E; [| apply IH].
    specialize (IH (dirty r)).
    destruct (ZodNumber_checks rest p (dirty r) x). simpl in *.
    constructor; [| exact IH].
    unfold on_path, at_path. simpl.
    rewrite (failsNumberCheck_path _ _ _ E). apply app_nil_r.
Qed.

Lemma tokenCount_schema_paths p t :
  Forall (on_path p) (fst (tokenCount_schema p t)).
Proof.
  unfold tokenCount_schema, ZodNumber.
  destruct t as [[| neg | q] |];
    try (repeat constructor); apply ZodNumber_checks_paths.
Qed.

(** Keeping the issues of one field. *)
Lemma filter_on_path f g l :
  Forall (on_path [g]) l ->
  filter (issue_on f) l = if String.eqb g f then l else [].
Proof.
  induction 1 as [| i l Hi _ IH]; simpl.
  - destruct (String.eqb g f); reflexivity.
  - unfold issue_on at 1. rewrite Hi, IH.
    destruct (String.eqb g f); reflexivity.
Qed.

Lemma dateStart_schema_issues p d :
  fst (dateStart_schema p d) = date_issues "Start Date is required" p d.
Proof.
  unfold dateStart_schema, transform, nullable, ZodDate, date_issues.
  destruct d as [[| t] |]; try reflexivity.
  cbn -[Date_1900_01_01 Z.ltb]. destruct (t <? Date_1900_01_01); reflexivity.
Qed.

Lemma dateEnd_schema_issues p d :
  fst (dateEnd_schema p d) = date_issues "End Date is required" p d.
Proof.
  unfold dateEnd_schema, transform, nullable, ZodDate, date_issues.
  destruct d as [[| t] |]; try reflexivity.
  cbn -[Date_1900_01_01 Z.ltb]. destruct (t <? Date_1900_01_01); reflexivity.
Qed.

Lemma date_issues_paths msg p d : Forall (on_path p) (date_issues msg p d).
Proof.
  unfold date_issues. destruct d as [[| t] |]; try (repeat constructor).
  destruct (t <? Date_1900_01_01); repeat constructor.
Qed.

Lemma fst_refine {I O} (inner : Schema I O) check sub msg p input :
  fst (refine inner check sub msg p input)
  = fst (inner p input)
    ++ match snd (inner p input) with
       | INVALID => []
       | DIRTY v | OK v =>
           if check v then [] else [mkIssue custom (p ++ sub) (Some msg)]
       end.
Proof.
  unfold refine. destruct (inner p input) as [issues [| v | v]]; simpl;
    try destruct (check v); simpl; rewrite ?app_nil_r; reflexivity.
Qed.

Lemma schemaDates_issues r :
  fst (schemaDates [] r)
  = date_issues "Start Date is required" ["dateStart"%string] (dateStart r)
    ++ date_issues "End Date is required" ["dateEnd"%string] (dateEnd r)
    ++ order_issues (dateStart r) (dateEnd r).
Proof.
  unfold schemaDates. rewrite fst_refine. unfold key, ap, pure. simpl.
  rewrite dateStart_schema_issues, dateEnd_schema_issues,
    dateStart_schema_result, dateEnd_schema_result, <- app_assoc.
  do 2 f_equal. unfold date_result, order_issues.
  destruct (dateStart r) as [[| a] |], (dateEnd r) as [[| b] |];
    try reflexivity;
    repeat match goal with
           | |- context [if ?t <? Date_1900_01_01 then _ else _] =>
               destruct (t <? Date_1900_01_01)
           end; simpl; try reflexivity.
Qed.

Lemma issues_of_fields U r :
  issues_of U r
  = fst (title_schema U ["title"%string] (title r))
    ++ fst (description_schema U ["description"%string] (description r))
    ++ fst (location_schema U ["location"%string] (location r))
    ++ fst (url_schema U ["url"%string] (url r))
    ++ fst (tokenCount_schema ["tokenCount"%string] (tokenCount r))
    ++ fst (schemaDates [] r).
Proof.
  unfold issues_of, schema, intersection, schemaCommon, key.
  rewrite !fst_ap. simpl. rewrite app_nil_r, <- !app_assoc. reflexivity.
Qed.

Lemma order_issues_paths s e : Forall (on_path ["dateEnd"%string]) (order_issues s e).
Proof.
  unfold order_issues. destruct s as [[| a] |], e as [[| b] |];
    try destruct (b >=? a); repeat constructor.
Qed.

Ltac filter_fields :=
  unfold errors_on; rewrite issues_of_fields, schemaDates_issues, !filter_app;
  unfold title_schema, description_schema, location_schema, url_schema, ZodString;
  repeat
    match goal with
    | |- context [filter (issue_on ?f) (fst (ZodString_checks ?U ?c [?g] ?r ?d))] =>
        rewrite (filter_on_path f g _ (ZodString_checks_paths U c [g] r d))
    | |- context [filter (issue_on ?f) (fst (tokenCount_schema [?g] ?t))] =>
        rewrite (filter_on_path f g _ (tokenCount_schema_paths [g] t))
    | |- context [filter (issue_on ?f) (date_issues ?m [?g] ?d)] =>
        rewrite (filter_on_path f g _ (date_issues_paths m [g] d))
    | |- context [filter (issue_on ?f) (order_issues ?s ?e)] =>
        rewrite (filter_on_path f _ _ (order_issues_paths s e))
    end;
  cbn [String.eqb Ascii.eqb Bool.eqb]; cbn [app]; rewrite ?app_nil_r.

Lemma errors_on_title U r :
  errors_on U "title" r = fst (title_schema U ["title"%string] (title r)).
Proof. filter_fields. reflexivity. Qed.

Lemma errors_on_location U r :
  errors_on U "location" r = fst (location_schema U ["location"%string] (location r)).
Proof. filter_fields. reflexivity. Qed.

Lemma errors_on_url U r :
  errors_on U "url" r = fst (url_schema U ["url"%string] (url r)).
Proof. filter_fields. reflexivity. Qed.

Lemma errors_on_dateStart U r :
  errors_on U "dateStart" r
  = date_issues "Start Date is required" ["dateStart"%string] (dateStart r).
Proof. filter_fields. reflexivity. Qed.

Lemma errors_on_dateEnd U r :
  errors_on U "dateEnd" r
  = date_issues "End Date is required" ["dateEnd"%string] (dateEnd r)
    ++ order_issues (dateStart r) (dateEnd r).
Proof. filter_fields. reflexivity. Qed.

(** ** Claims about the schema *)

Lemma tokenCount_rule_number n : tokenCount_rule (number n) <-> 1 <= n <= 200.
Proof.
  unfold tokenCount_rule, number. split.
  - intros (q & k & Hq & Hk & Hrange). injection Hq as Hq. subst q.
    unfold Qeq in Hk. simpl in Hk. lia.
  - intros H. exists (inject_Z n), n. repeat split; lia.
Qed.

Lemma isValid_set_tokenCount_range U n r :
  isValid U (set_tokenCount (number n) r) = true -> 1 <= n <= 200.
Proof.
  rewrite schema_valid_iff. unfold MintFormValues_rules. simpl.
  intros (_ & _ & _ & _ & H & _). apply tokenCount_rule_number. exact H.
Qed.

Lemma isValid_set_tokenCount U n r :
  isValid U r = true -> 1 <= n <= 200 ->
  isValid U (set_tokenCount (number n) r) = true.
Proof.
  rewrite !schema_valid_iff. unfold MintFormValues_rules. simpl.
  intros (Ht & Hd & Hl & Hu & _ & Hs & He & Ho) Hn.
  refine (conj Ht (conj Hd (conj Hl (conj Hu (conj _ (conj Hs (conj He Ho))))))).
  apply tokenCount_rule_number. exact Hn.
Qed.

(** The location is checked as entered, not trimmed as section 4.1 has it:
    a record whose location is two spaces is accepted although the rules of
    section 4.1 fail on it, and a record whose location is 256 letters and a
    space is rejected although those rules hold on it. *)
Lemma location_is_checked_untrimmed :
  (isValid sample_canParse blank_location_values = true
   /\ ~ section_4_1_rules sample_canParse blank_location_values)
  /\ (isValid sample_canParse long_location_values = false
      /\ section_4_1_rules sample_canParse long_location_values).
Proof.
  split; split.
  - vm_compute. reflexivity.
  - unfold section_4_1_rules, MintFormValues_rules, within.
    intros (_ & _ & [H _] & _). vm_compute in H. apply H. reflexivity.
  - vm_compute. reflexivity.
  - unfold section_4_1_rules. apply schema_valid_iff. vm_compute. reflexivity.
Qed.

(** C1, amended: for every record whose title and url carry no surrounding
    white space, the schema accepts the record exactly when the per-field
    rules hold (title and url trimmed, description and location as entered:
    title, description and location non-empty and within 256, 10000 and 256
    characters; url non-empty and a URL the platform parses; tokenCount an
    integer from 1 to 200; both dates present and not before 1900-01-01) and
    dateEnd >= dateStart. For every record, a token count of 0 or 201 is
    rejected whatever the other fields are, and in a record that is accepted
    the token count can be replaced by 1 or by 200 and the record is still
    accepted. *)
Theorem schema_accepts_iff_designed_rules (URL_canParse : JsString -> bool)
    (r : MintFormValues) :
  (Js.trim (title r) = title r -> Js.trim (url r) = url r ->
   (isValid URL_canParse r = true
    <-> MintFormValues_rules URL_canParse (parsed r)))
  /\ isValid URL_canParse (set_tokenCount (number 0) r) = false
  /\ isValid URL_canParse (set_tokenCount (number 201) r) = false
  /\ (isValid URL_canParse r = true ->
      isValid URL_canParse (set_tokenCount (number 1) r) = true
      /\ isValid URL_canParse (set_tokenCount (number 200) r) = true).
Proof.
  split.
  { intros Ht Hu.
    assert (E : parsed r = r)
      by (unfold parsed; simpl; rewrite Ht, Hu; destruct r; reflexivity).
    rewrite E. apply schema_valid_iff. }
  split; [| split].
  - destruct (isValid URL_canParse (set_tokenCount (number 0) r)) eqn:E;
      [apply isValid_set_tokenCount_range in E; lia | reflexivity].
  - destruct (isValid URL_canParse (set_tokenCount (number 201) r)) eqn:E;
      [apply isValid_set_tokenCount_range in E; lia | reflexivity].
  - intros H. split; apply isValid_set_tokenCount; auto; lia.
Qed.

Lemma schema_accepts_iff_designed_rules_witness :
  (isValid sample_canParse sample_values = true
   <-> MintFormValues_rules sample_canParse (parsed sample_values))
  /\ isValid sample_canParse (set_tokenCount (number 1) sample_values) = true.
Proof.
  destruct (schema_accepts_iff_designed_rules sample_canParse sample_values)
    as (Hiff & _ & _ & Hone).
  split.
  - apply Hiff; reflexivity.
  - apply Hone. vm_compute. reflexivity.
Defined.

(** C7: the Create button is disabled exactly when the form's record does
    not validate, or no account is connected, or the user is not
    authenticated, or a submission is in flight; so each of the four
    conditions disables it by itself. *)
Theorem create_disabled_iff (URL_canParse : JsString -> bool)
    (h : Hooks) (st : State) :
  disabled URL_canParse h st CreateButton = true
  <-> isValid URL_canParse (values st) = false
      \/ Boolean (account h) = false
      \/ isAuthenticated h = false
      \/ loading st = true.
Proof.
  unfold disabled.
  destruct (loading st), (Boolean (account h)),
    (isValid URL_canParse (values st)), (isAuthenticated h); simpl;
    intuition congruence.
Qed.

(** ** What a validated record carries *)

Lemma merge_OK {A B} (rf : ParseReturn (A -> B)) (rx : ParseReturn A) y :
  merge rf rx = OK y -> exists f x, rf = OK f /\ rx = OK x /\ y = f x.
Proof.
  destruct rf as [| f | f], rx as [| x | x]; simpl; try discriminate.
  intros H. injection H as <-. exists f, x. auto.
Qed.

Lemma description_schema_value U p s v :
  snd (description_schema U p s) = OK v -> v = s.
Proof.
  unfold description_schema, ZodString. simpl.
  destruct (Js.length s <? 1), (Js.length s >? 10000); simpl; congruence.
Qed.

Lemma location_schema_value U p s v :
  snd (location_schema U p s) = OK v -> v = s.
Proof.
  unfold location_schema, ZodString. simpl.
  destruct (Js.length s <? 1), (Js.length s >? 256); simpl; congruence.
Qed.

Lemma url_schema_value U p s v :
  snd (url_schema U p s) = OK v -> v = Js.trim s.
Proof.
  unfold url_schema, ZodString. simpl.
  destruct (Js.length s <? 1), (U s); simpl; congruence.
Qed.

Lemma tokenCount_schema_value p t v :
  snd (tokenCount_schema p t) = OK v -> t = Some v.
Proof.
  unfold tokenCount_schema, ZodNumber.
  destruct t as [[| neg | q] |]; try discriminate;
    cbn -[isInteger le_bound gt_bound];
    repeat match goal with
           | |- context [if ?c then _ else _] => destruct c
           end; simpl; congruence.
Qed.

Lemma schemaDates_value p r d :
  snd (schemaDates p r) = OK d ->
  out_dateStart d = dateStart r /\ out_dateEnd d = dateEnd r.
Proof.
  unfold schemaDates. rewrite snd_refine. unfold key, ap, pure; simpl.
  rewrite dateStart_schema_result, dateEnd_schema_result.
  destruct (date_result (dateStart r)) as [| s | s] eqn:Es,
           (date_result (dateEnd r)) as [| e | e] eqn:Ee; simpl;
    try discriminate.
  apply date_result_OK in Es, Ee. subst s e.
  match goal with |- context [if ?c then _ else _] => destruct c end;
    try discriminate.
  intros H. injection H as <-. auto.
Qed.

Lemma safeParse_success U r v :
  safeParse (schema U) r = success v -> v = parsed r.
Proof.
  unfold safeParse.
  destruct (schema U [] r) as [issues ret] eqn:E.
  assert (Hret : snd (schema U [] r) = ret) by (rewrite E; reflexivity).
  destruct ret as [| w | w]; try discriminate.
  intros H. injection H as <-. clear E.
  unfold schema, intersection in Hret. rewrite !snd_ap in Hret.
  apply merge_OK in Hret as (f & d & Hf & Hd & ->).
  apply merge_OK in Hf as (g & c & Hg & Hc & ->).
  injection Hg as <-.
  apply schemaDates_value in Hd as [Hs He].
  unfold schemaCommon, key in Hc. rewrite !snd_ap in Hc.
  apply merge_OK in Hc as (f6 & ip & Hc & Hip & ->).
  apply merge_OK in Hc as (f5 & tc & Hc & Htc & ->).
  apply merge_OK in Hc as (f4 & u & Hc & Hu & ->).
  apply merge_OK in Hc as (f3 & l & Hc & Hl & ->).
  apply merge_OK in Hc as (f2 & de & Hc & Hde & ->).
  apply merge_OK in Hc as (f1 & t & Hc & Ht & ->).
  injection Hc as <-.
  apply title_schema_value in Ht. apply description_schema_value in Hde.
  apply location_schema_value in Hl. apply url_schema_value in Hu.
  apply tokenCount_schema_value in Htc. injection Hip as <-.
  subst. unfold parsed, mergeValues. simpl. rewrite Hs, He, Htc.
  reflexivity.
Qed.

Lemma safeParse_isValid U r :
  isValid U r = true -> safeParse (schema U) r = success (parsed r).
Proof.
  unfold isValid. destruct (safeParse (schema U) r) as [v |] eqn:E;
    [| discriminate].
  intros _. f_equal. apply (safeParse_success U r v E).
Qed.

(** A record whose location is two spaces is accepted, with no error on
    the location, and the parsed location is still the two spaces. *)
Lemma whitespace_location_accepted :
  Js.trim (location blank_location_values) = []
  /\ errors_on sample_canParse "location" blank_location_values = []
  /\ safeParse (schema sample_canParse) blank_location_values
     = success blank_location_values.
Proof. vm_compute. repeat split; reflexivity. Qed.

(** The title is trimmed after its checks have run: a title of two spaces
    is accepted and validates to the empty title. *)
Example whitespace_title_validates_to_empty :
  errors_on sample_canParse "title" blank_title_values = []
  /\ safeParse (schema sample_canParse) blank_title_values
     = success (apply_change (change_title []) sample_values).
Proof. vm_compute. split; reflexivity. Qed.

(** C5, amended: the schema trims [title] and [url], so an accepted record is
    handed on with both trimmed, while [location] and [description] are
    handed on as entered; the emptiness and maximum-length checks of
    [location] apply to the value as entered, so the field has no error
    exactly when that value has 1 to 256 characters; and an empty title,
    location or url is rejected as empty, with the field's "required"
    message. *)
Theorem schema_trims_title_and_url (URL_canParse : JsString -> bool)
    (r : MintFormValues) :
  (forall v, safeParse (schema URL_canParse) r = success v ->
     title v = Js.trim (title r) /\ url v = Js.trim (url r)
     /\ location v = location r /\ description v = description r)
  /\ (errors_on URL_canParse "location" r = [] <-> within (location r) 256)
  /\ (title r = [] ->
      In (required "title" "Title is required") (errors_on URL_canParse "title" r))
  /\ (location r = [] ->
      In (required "location" "Location is required")
        (errors_on URL_canParse "location" r))
  /\ (url r = [] ->
      In (required "url" "URL is required") (errors_on URL_canParse "url" r)).
Proof.
  split; [| split; [| split; [| split]]].
  - intros v Hv. apply safeParse_success in Hv. subst v.
    unfold parsed. simpl. auto.
  - rewrite errors_on_location. unfold location_schema, ZodString, within. simpl.
    destruct (Js.length (location r) <? 1) eqn:E1,
             (Js.length (location r) >? 256) eqn:E2; simpl;
      split; intros H; try discriminate; try reflexivity; lia.
  - intros H. rewrite errors_on_title, H. simpl. left. reflexivity.
  - intros H. rewrite errors_on_location, H. simpl. left. reflexivity.
  - intros H. rewrite errors_on_url, H.
    unfold url_schema, ZodString. simpl.
    destruct (URL_canParse []); simpl; left; reflexivity.
Qed.

Lemma schema_trims_title_and_url_witness :
  title (parsed blank_title_values) = Js.trim (title blank_title_values)
  /\ url (parsed blank_title_values) = Js.trim (url blank_title_values)
  /\ location (parsed blank_title_values) = location blank_title_values
  /\ description (parsed blank_title_values) = description blank_title_values.
Proof.
  destruct (schema_trims_title_and_url sample_canParse blank_title_values)
    as [H _].
  apply H. vm_compute. reflexivity.
Defined.

Lemma isValid_false_iff U r :
  isValid U r = false <-> ~ MintFormValues_rules U r.
Proof.
  rewrite <- schema_valid_iff. destruct (isValid U r); split; intros H;
    try reflexivity; try discriminate; congruence.
Qed.



(** ** Claims about the submit handler *)

Lemma submit_valid U h m :
  isValid U (values (state m)) = true ->
  submit U h m = exec (onSubmit h (parsed (values (state m)))) m.
Proof.
  intros H. unfold submit, handleSubmit.
  rewrite (safeParse_isValid U _ H). reflexivity.
Qed.

Lemma requests_app t u : requests (t ++ u) = requests t ++ requests u.
Proof. apply filter_app. Qed.

Lemma notifications_app t u :
  notifications (t ++ u) = notifications t ++ notifications u.
Proof. apply filter_app. Qed.

Lemma resets_app t u : resets (t ++ u) = resets t ++ resets u.
Proof. apply filter_app. Qed.

Lemma includes_suffix (pre s : JsString) : includes (pre ++ s) s.
Proof. exists pre, []. rewrite app_nil_r. reflexivity. Qed.

(** C2: when the form's record is valid and account, network identifier and
    session token are present (truthy), a submit invocation sets the loading
    flag and issues one create-event call, carrying the network identifier
    and, from the validated record, tokenCount, title, description, location,
    url as imageUrl, dateStart, dateEnd, and isManaged = not isPublic;
    whatever the outcome, that call is the only one of the invocation. When
    the call resolves, the user is notified of the success with the returned
    event identifier in the message, the form is reset to its defaults, the
    loading flag is cleared and the active-dialog signal is emptied, which
    closes the dialog. *)
Theorem submit_success (URL_canParse : JsString -> bool) (h : Hooks)
    (m : Machine) (a : JsString) (n : Z) (token : JsString)
    (result : MintResult) :
  isValid URL_canParse (values (state m)) = true ->
  account h = Some a -> networkId h = Some n -> jwt h = Some token ->
  String_truthy a && Number_truthy n && String_truthy token = true ->
  let v := parsed (values (state m)) in
  let m1 := submit URL_canParse h m in
  let m2 := settle (Resolved result) m1 in
  exists req,
    (req_networkId req = n /\ req_tokenCount req = tokenCount v
     /\ req_title req = title v /\ req_description req = description v
     /\ req_location req = location v /\ req_imageUrl req = url v
     /\ req_dateStart req = dateStart v /\ req_dateEnd req = dateEnd v
     /\ req_isManaged req = negb (isPublic v))
    /\ trace m1 = trace m ++ [setLoading true; API_event_create token req]
    /\ (forall s, requests (trace (settle s m1))
                  = requests (trace m) ++ [API_event_create token req])
    /\ trace m2
       = trace m1
         ++ [ console_debug;
              enqueueSnackbar (mint_successful result) variant_success;
              reset; setLoading false; setActiveDialog no_dialog ]
    /\ includes (mint_successful result) (Number_toString (eventId result))
    /\ values (state m2) = defaultValues
    /\ loading (state m2) = false
    /\ activeDialog (state m2) = no_dialog
    /\ open (state m2) = false.
Proof.
  intros Hv Ha Hn Ht Hg v m1 m2. subst m2 m1.
  rewrite (submit_valid _ _ _ Hv). fold v.
  unfold onSubmit. rewrite Ha, Hn, Ht, Hg. cbn -[v mint_successful mint_failed].
  exists (mkRequest n (tokenCount v) (title v) (description v) (location v)
            (url v) (dateStart v) (dateEnd v) (negb (isPublic v))).
  split; [repeat split |].
  split; [rewrite <- app_assoc; reflexivity |].
  split.
  - intros [res | [[resp |] msg | msg | msg | [|]]]; unfold settle;
      cbn -[v mint_successful mint_failed];
      rewrite <- !app_assoc; rewrite requests_app; reflexivity.
  - unfold settle; cbn -[v mint_successful mint_failed].
    split; [rewrite <- !app_assoc; reflexivity |].
    split; [apply includes_suffix |]. auto.
Qed.

Lemma submit_success_witness :
  exists req,
    req_isManaged req = false
    /\ trace (settle (Resolved {| eventId := 42 |})
                (submit sample_canParse sample_hooks sample_machine))
       = [ setLoading true;
           API_event_create (str "session-token") req;
           console_debug;
           enqueueSnackbar (str "Mint successful: Event #42") variant_success;
           reset; setLoading false; setActiveDialog no_dialog ].
Proof.
  destruct (submit_success sample_canParse sample_hooks sample_machine
              (str "rPoapUser") 1 (str "session-token") {| eventId := 42 |}
              eq_refl eq_refl eq_refl eq_refl eq_refl)
    as (req & (_ & _ & _ & _ & _ & _ & _ & _ & Hm) & H1 & _ & H2 & _).
  exists req. split; [exact Hm |]. rewrite H2, H1. reflexivity.
Defined.

(** C3: when the form's record is valid, the preconditions hold and the
    create-event call fails, the handler logs the error and the [finally]
    block clears the loading flag and empties the active-dialog signal, which
    closes the dialog; the form is not reset, so its values are as they were.
    The user is notified, once, with an error message ("Mint failed: ...")
    exactly when the [catch] block can build the message: not for an axios
    error whose response has a null or undefined payload, nor for a null or
    undefined rejection, where reading the message throws before the
    notification. *)
Theorem submit_failure (URL_canParse : JsString -> bool) (h : Hooks)
    (m : Machine) (a : JsString) (n : Z) (token : JsString) (err : Thrown) :
  isValid URL_canParse (values (state m)) = true ->
  account h = Some a -> networkId h = Some n -> jwt h = Some token ->
  String_truthy a && Number_truthy n && String_truthy token = true ->
  let m1 := submit URL_canParse h m in
  let m2 := settle (Rejected err) m1 in
  trace m2
  = trace m1 ++ [console_debug] ++ failure_notification err
    ++ [setLoading false; setActiveDialog no_dialog]
  /\ notifications (trace m2)
     = notifications (trace m) ++ failure_notification err
  /\ (failure_text err = None <->
      err = NotAnError true \/ exists msg, err = AxiosErrorNoData msg)
  /\ (forall text, failure_text err = Some text ->
      exists detail, text = str "Mint failed: " ++ detail)
  /\ resets (trace m2) = resets (trace m)
  /\ values (state m2) = values (state m)
  /\ loading (state m2) = false
  /\ activeDialog (state m2) = no_dialog
  /\ open (state m2) = false.
Proof.
  intros Hv Ha Hn Ht Hg m1 m2. subst m2 m1.
  rewrite (submit_valid _ _ _ Hv).
  unfold onSubmit. rewrite Ha, Hn, Ht, Hg. unfold settle.
  destruct err as [[resp |] msg | msg | msg | [|]];
    cbn -[parsed];
    (split; [rewrite <- !app_assoc; reflexivity |]);
    (split; [rewrite <- !app_assoc, !notifications_app; simpl;
             rewrite ?app_nil_r; reflexivity |]);
    (split;
     [ split;
       [ try discriminate; intros _; eauto
       | intros [H | [msg' H]]; try discriminate; reflexivity ] |]);
    (split; [intros text H; try discriminate; injection H as <-;
             eexists; reflexivity |]);
    rewrite <- !app_assoc, !resets_app; simpl; rewrite ?app_nil_r; auto 10.
Qed.

Lemma submit_failure_witness :
  notifications
    (trace (settle (Rejected (AxiosErrorNoData
                      (str "Request failed with status code 500")))
              (submit sample_canParse sample_hooks sample_machine)))
  = []
  /\ open (state (settle (Rejected (AxiosErrorNoData
                      (str "Request failed with status code 500")))
              (submit sample_canParse sample_hooks sample_machine)))
     = false.
Proof.
  destruct (submit_failure sample_canParse sample_hooks sample_machine
              (str "rPoapUser") 1 (str "session-token")
              (AxiosErrorNoData (str "Request failed with status code 500"))
              eq_refl eq_refl eq_refl eq_refl eq_refl)
    as (_ & Hn & _ & _ & _ & _ & _ & _ & Ho).
  split; [exact Hn | exact Ho].
Defined.

(** A server-reported failure: the payload's [error] text is shown and the
    form keeps its values. *)
Example server_rejects_notification :
  notifications
    (trace (settle (Rejected (AxiosError
                      (Some {| data_error := Some (str "limit exceeded") |})
                      (str "Request failed with status code 400")))
              (submit sample_canParse sample_hooks sample_machine)))
  = [enqueueSnackbar (str "Mint failed: limit exceeded") variant_error]
  /\ values (state (settle (Rejected (AxiosError
                      (Some {| data_error := Some (str "limit exceeded") |})
                      (str "Request failed with status code 400")))
              (submit sample_canParse sample_hooks sample_machine)))
     = sample_values.
Proof. vm_compute. split; reflexivity. Qed.

(** C4, the code at its failing input: an axios error that carries a
    server payload is reported with the payload's [error] text, and an error
    that is not an axios error with its own message; but an axios error
    without a response (the request got no answer: a network error, a
    timeout) is reported as "Mint failed: undefined", whatever its message. *)
Theorem network_error_notification :
  (forall e msg,
     mint_failed (AxiosError (Some {| data_error := Some e |}) msg)
     = str "Mint failed: " ++ e)
  /\ (forall msg, mint_failed (OtherError msg) = str "Mint failed: " ++ msg)
  /\ (forall msg,
        mint_failed (AxiosError None msg) = str "Mint failed: undefined")
  /\ notifications
       (trace (settle (Rejected (AxiosError None (str "Network Error")))
                 (submit sample_canParse sample_hooks sample_machine)))
     = [enqueueSnackbar (str "Mint failed: undefined") variant_error].
Proof. repeat split. Qed.

(** A submit invocation without a connected account: nothing is sent and
    nobody is notified, but the dialog, open before, is closed. *)
Lemma submit_without_account_closes_dialog :
  isValid sample_canParse (values (state sample_machine)) = true
  /\ open (state sample_machine) = true
  /\ open (state (submit sample_canParse
                    (mkHooks None (Some 1) true (Some (str "session-token")))
                    sample_machine)) = false
  /\ trace (submit sample_canParse
              (mkHooks None (Some 1) true (Some (str "session-token")))
              sample_machine)
     = [setLoading true; setLoading false; setActiveDialog no_dialog].
Proof. vm_compute. repeat split; reflexivity. Qed.

(** C8, amended: when the form's record is valid and the account, the network
    identifier or the session token is absent (or falsy), a submit invocation
    issues no create-event call, shows no notification and leaves the form's
    values unchanged; it sets and clears the loading flag and empties the
    active-dialog signal, so the loading flag ends cleared and the dialog is
    closed. *)
Theorem submit_precondition_fails (URL_canParse : JsString -> bool)
    (h : Hooks) (m : Machine) :
  isValid URL_canParse (values (state m)) = true ->
  canCreate h = false ->
  let m' := submit URL_canParse h m in
  trace m' = trace m ++ [setLoading true; setLoading false; setActiveDialog no_dialog]
  /\ requests (trace m') = requests (trace m)
  /\ notifications (trace m') = notifications (trace m)
  /\ resets (trace m') = resets (trace m)
  /\ values (state m') = values (state m)
  /\ loading (state m') = false
  /\ activeDialog (state m') = no_dialog
  /\ open (state m') = false
  /\ suspended m' = suspended m.
Proof.
  intros Hv Hg m'. subst m'. rewrite (submit_valid _ _ _ Hv).
  assert (E : exec (onSubmit h (parsed (values (state m)))) m
              = exec (setLoading true ;; setLoading false ;;
                      setActiveDialog no_dialog ;; Return) m).
  { unfold onSubmit, canCreate in *.
    destruct (account h) as [a |], (networkId h) as [n |], (jwt h) as [t |];
      try reflexivity.
    rewrite Hg. reflexivity. }
  rewrite E. cbn.
  rewrite <- !app_assoc, requests_app, notifications_app, resets_app. simpl.
  rewrite !app_nil_r. auto 10.
Qed.

Lemma submit_precondition_fails_witness :
  trace (submit sample_canParse
           (mkHooks (Some (str "rPoapUser")) None true (Some (str "session-token")))
           sample_machine)
  = [setLoading true; setLoading false; setActiveDialog no_dialog]
  /\ values (state (submit sample_canParse
           (mkHooks (Some (str "rPoapUser")) None true (Some (str "session-token")))
           sample_machine)) = sample_values.
Proof.
  destruct (submit_precondition_fails sample_canParse
              (mkHooks (Some (str "rPoapUser")) None true
                 (Some (str "session-token")))
              sample_machine eq_refl eq_refl)
    as (Ht & _ & _ & _ & Hv & _).
  split; [exact Ht | exact Hv].
Defined.

(** ** Claims about closing the dialog *)

Lemma handleClose_backdrop m : exec (handleClose (Some "backdropClick"%string)) m = m.
Proof. reflexivity. Qed.

Lemma handleClose_other reason m :
  reason_is reason "backdropClick" = false ->
  exec (handleClose reason) m
  = {| state := perform (setActiveDialog no_dialog) (state m);
       trace := trace m ++ [setActiveDialog no_dialog];
       suspended := suspended m |}.
Proof. intros H. unfold handleClose. rewrite H. reflexivity. Qed.

(** With the dialog open and idle, pressing Escape leaves it open. *)
Lemma escape_leaves_dialog_open :
  open (state sample_machine) = true
  /\ loading (state sample_machine) = false
  /\ open (state (dispatch sample_canParse sample_hooks EscapeKeyDown
                    sample_machine)) = true.
Proof. vm_compute. repeat split; reflexivity. Qed.

(** C9, amended: the cancel handler resets the form to its defaults and
    empties the active-dialog signal, which closes the dialog, and the Cancel
    button of the open, idle dialog runs it; the close handler, given any
    reason other than a backdrop click, empties the signal without resetting
    the form, and the close button of the open, idle dialog runs it with no
    reason; a backdrop click is ignored, with no change of state; and the
    Escape key, disabled on this dialog, changes nothing either. *)
Theorem closing_behaviour (URL_canParse : JsString -> bool) (h : Hooks)
    (m : Machine) :
  (values (state (exec handleCancel m)) = defaultValues
   /\ activeDialog (state (exec handleCancel m)) = no_dialog
   /\ open (state (exec handleCancel m)) = false)
  /\ (open (state m) = true -> loading (state m) = false ->
      dispatch URL_canParse h (Click CancelButton) m = exec handleCancel m)
  /\ (forall reason, reason_is reason "backdropClick" = false ->
      values (state (exec (handleClose reason) m)) = values (state m)
      /\ loading (state (exec (handleClose reason) m)) = loading (state m)
      /\ resets (trace (exec (handleClose reason) m)) = resets (trace m)
      /\ activeDialog (state (exec (handleClose reason) m)) = no_dialog
      /\ open (state (exec (handleClose reason) m)) = false)
  /\ (open (state m) = true -> loading (state m) = false ->
      dispatch URL_canParse h (Click CloseIconButton) m
      = exec (handleClose None) m)
  /\ dispatch URL_canParse h BackdropClick m = m
  /\ dispatch URL_canParse h EscapeKeyDown m = m.
Proof.
  split; [auto |].
  split; [intros Ho Hl; unfold dispatch, disabled; rewrite Ho, Hl; reflexivity |].
  split.
  { intros reason H. rewrite (handleClose_other _ _ H). simpl.
    rewrite resets_app, app_nil_r. auto. }
  split; [intros Ho Hl; unfold dispatch, disabled; rewrite Ho, Hl; reflexivity |].
  split; unfold dispatch; destruct (open (state m)); reflexivity.
Qed.

Lemma closing_behaviour_witness :
  dispatch sample_canParse sample_hooks (Click CancelButton) sample_machine
  = exec handleCancel sample_machine
  /\ open (state (exec (handleClose (Some "escapeKeyDown"%string)) sample_machine))
     = false.
Proof.
  destruct (closing_behaviour sample_canParse sample_hooks sample_machine)
    as (_ & Hcancel & Hclose & _).
  split; [apply Hcancel; reflexivity | apply Hclose; reflexivity].
Defined.

(** ** Claims about the submission in flight *)

Lemma dispatch_loading U h g m :
  loading (state m) = true -> dispatch U h g m = m.
Proof.
  intros Hl. unfold dispatch. destruct (open (state m)); simpl; [| reflexivity].
  destruct g as [| | c | c]; try reflexivity.
  - assert (Hd : disabled U h (state m) c = true)
      by (unfold disabled; rewrite Hl; destruct c; reflexivity).
    rewrite Hd. reflexivity.
  - unfold disabled. rewrite Hl. reflexivity.
Qed.

Lemma run_gestures_loading U gs m :
  loading (state m) = true -> run_gestures U gs m = m.
Proof.
  intros Hl. unfold run_gestures.
  induction gs as [| [h g] gs IH]; simpl; [reflexivity |].
  rewrite (dispatch_loading U h g m Hl). exact IH.
Qed.

Lemma onSubmit_exec h v m :
  suspended (exec (onSubmit h v) m) = suspended m
  \/ exists k, suspended (exec (onSubmit h v) m) = Some k
               /\ loading (state (exec (onSubmit h v) m)) = true
               /\ closes k.
Proof.
  unfold onSubmit.
  destruct (account h) as [a |], (networkId h) as [n |], (jwt h) as [t |];
    try (left; reflexivity).
  destruct (String_truthy a && Number_truthy n && String_truthy t);
    [| left; reflexivity].
  right. eexists. split; [reflexivity |]. split; [reflexivity |].
  intros [res | [[resp |] msg | msg | msg | [|]]] m0; repeat split.
Qed.

Lemma dispatch_in_flight_inv U h g m :
  in_flight_inv m -> in_flight_inv (dispatch U h g m).
Proof.
  intros Hinv. destruct (loading (state m)) eqn:Hl.
  - rewrite (dispatch_loading U h g m Hl). exact Hinv.
  - assert (Hs : suspended m = None).
    { unfold in_flight_inv in Hinv. destruct (suspended m) as [k |];
        [destruct Hinv; congruence | reflexivity]. }
    unfold dispatch. destruct (open (state m)); simpl; [| exact Hinv].
    destruct g as [| | c | c]; try exact Hinv.
    + destruct (disabled U h (state m) c); [exact Hinv |].
      destruct c as [| f | |]; try exact Hinv;
        try (unfold in_flight_inv; simpl; rewrite Hs; exact I).
      unfold onClick, handleSubmit.
      destruct (safeParse (schema U) (values (state m))) as [v |];
        [| exact Hinv].
      unfold in_flight_inv.
      destruct (onSubmit_exec h v m) as [E | (k & E & Hk)]; rewrite E.
      * rewrite Hs. exact I.
      * exact Hk.
    + unfold disabled. rewrite Hl.
      unfold in_flight_inv. simpl. rewrite Hs. exact I.
Qed.

Lemma settle_in_flight_inv s m : in_flight_inv m -> in_flight_inv (settle s m).
Proof.
  unfold settle, in_flight_inv at 1. destruct (suspended m) as [k |] eqn:Hs.
  - intros [_ Hk]. unfold in_flight_inv.
    destruct (Hk s {| state := state m; trace := trace m; suspended := None |})
      as (E & _). rewrite E. exact I.
  - intros _. unfold in_flight_inv. rewrite Hs. exact I.
Qed.

Lemma reachable_in_flight_inv U m : reachable U m -> in_flight_inv m.
Proof.
  induction 1 as [d | e m Hm IH].
  - exact I.
  - destruct e as [h g | s | d]; simpl.
    + apply dispatch_in_flight_inv. exact IH.
    + apply settle_in_flight_inv. exact IH.
    + exact IH.
Qed.

(** C10: while the loading flag is set, the close icon button, every form
    field, the Cancel button and the Create button are disabled, and no
    sequence of gestures (clicks on them, backdrop clicks, the Escape key,
    input) changes anything: the dialog is neither closed nor reset. In every
    machine the component can reach, a submission in flight has the loading
    flag set, and its settlement, whatever it is, clears the flag and closes
    the dialog. *)
Theorem loading_disables_closing (URL_canParse : JsString -> bool)
    (h : Hooks) (m : Machine) :
  (loading (state m) = true ->
   (forall c, disabled URL_canParse h (state m) c = true)
   /\ (forall gs, run_gestures URL_canParse gs m = m))
  /\ (reachable URL_canParse m -> suspended m <> None ->
      loading (state m) = true
      /\ forall s,
           loading (state (settle s m)) = false
           /\ open (state (settle s m)) = false
           /\ suspended (settle s m) = None).
Proof.
  split.
  - intros Hl. split.
    + intros c. unfold disabled. rewrite Hl. destruct c; reflexivity.
    + intros gs. apply run_gestures_loading. exact Hl.
  - intros Hr Hs. apply reachable_in_flight_inv in Hr.
    unfold in_flight_inv in Hr. unfold settle.
    destruct (suspended m) as [k |]; [| contradiction].
    destruct Hr as [Hl Hk]. split; [exact Hl |].
    intros s.
    destruct (Hk s {| state := state m; trace := trace m; suspended := None |})
      as (E1 & E2 & E3).
    unfold open. rewrite E1, E2, E3. auto.
Qed.

Lemma loading_disables_closing_witness :
  run_gestures sample_canParse
    [ (sample_hooks, Click CancelButton); (sample_hooks, Click CloseIconButton);
      (sample_hooks, EscapeKeyDown); (sample_hooks, BackdropClick);
      (sample_hooks, Input (change_title (str "Other"))) ]
    in_flight_machine
  = in_flight_machine.
Proof.
  apply (loading_disables_closing sample_canParse sample_hooks in_flight_machine).
  reflexivity.
Defined.

(** * Further properties of the code *)

(** ** Trimming *)

Lemma trimStart_split s :
  exists ws, s = ws ++ trimStart s /\ blank ws.
Proof.
  induction s as [| c s IH]; simpl.
  - exists []. split; [reflexivity | constructor].
  - destruct (isWhiteSpace c) eqn:E.
    + destruct IH as (ws & Hs & Hws). exists (c :: ws). split.
      * simpl. f_equal. exact Hs.
      * constructor; assumption.
    + exists []. split; [reflexivity | constructor].
Qed.

Lemma trimStart_starts_clean s : starts_clean (trimStart s).
Proof.
  induction s as [| c s IH]; simpl; [exact I |].
  destruct (isWhiteSpace c) eqn:E; [exact IH | exact E].
Qed.

Lemma trimStart_clean s : starts_clean s -> trimStart s = s.
Proof.
  destruct s as [| c s]; simpl; [reflexivity |]. intros H. rewrite H. reflexivity.
Qed.

Lemma trimStart_blank s : blank s -> trimStart s = [].
Proof.
  induction 1 as [| c s Hc _ IH]; simpl; [reflexivity |]. rewrite Hc. exact IH.
Qed.

Lemma trimStart_length s : (List.length (trimStart s) <= List.length s)%nat.
Proof.
  induction s as [| c s IH]; simpl; [lia |].
  destruct (isWhiteSpace c); simpl; lia.
Qed.

Lemma trim_ends_clean s : ends_clean (Js.trim s).
Proof.
  unfold ends_clean, Js.trim, trimEnd. rewrite rev_involutive.
  apply trimStart_starts_clean.
Qed.

Lemma trim_starts_clean s : starts_clean (Js.trim s).
Proof.
  unfold Js.trim, trimEnd.
  pose proof (trimStart_starts_clean s) as Hc.
  destruct (trimStart_split (rev (trimStart s))) as (ws & Hs & _).
  remember (trimStart s) as t. remember (trimStart (rev t)) as u.
  assert (Ht : t = rev u ++ rev ws).
  { rewrite <- rev_app_distr, <- Hs, rev_involutive. reflexivity. }
  destruct (rev u) as [| c u'] eqn:Eu; [exact I |].
  rewrite Ht in Hc. exact Hc.
Qed.

Lemma trim_clean s : starts_clean s -> ends_clean s -> Js.trim s = s.
Proof.
  intros H1 H2. unfold Js.trim, trimEnd.
  rewrite (trimStart_clean s H1), (trimStart_clean (rev s) H2).
  apply rev_involutive.
Qed.

Lemma trim_idempotent s : Js.trim (Js.trim s) = Js.trim s.
Proof. apply trim_clean; [apply trim_starts_clean | apply trim_ends_clean]. Qed.

Lemma trim_blank s : blank s -> Js.trim s = [].
Proof.
  intros H. unfold Js.trim. rewrite (trimStart_blank s H). reflexivity.
Qed.

Lemma trim_length s : Js.length (Js.trim s) <= Js.length s.
Proof.
  unfold Js.length, Js.trim, trimEnd. rewrite length_rev.
  pose proof (trimStart_length (rev (trimStart s))) as H1.
  pose proof (trimStart_length s) as H2.
  rewrite length_rev in H1. lia.
Qed.

(** ** The validated record *)

Lemma parsed_idempotent r : parsed (parsed r) = parsed r.
Proof. unfold parsed. simpl. rewrite !trim_idempotent. reflexivity. Qed.

(** X1: the values an accepted record is handed on with carry a title and a
    url with no white space at either end, neither longer than entered, and
    trimming them again changes nothing. *)
Theorem validated_strings_are_trimmed (URL_canParse : JsString -> bool)
    (r v : MintFormValues) :
  safeParse (schema URL_canParse) r = success v ->
  starts_clean (title v) /\ ends_clean (title v)
  /\ starts_clean (url v) /\ ends_clean (url v)
  /\ Js.length (title v) <= Js.length (title r)
  /\ Js.length (url v) <= Js.length (url r)
  /\ parsed v = v.
Proof.
  intros H. apply safeParse_success in H. subst v. unfold parsed at 1 2 3 4 5 6.
  simpl.
  repeat split;
    auto using trim_starts_clean, trim_ends_clean, trim_length, parsed_idempotent.
Qed.

Lemma validated_strings_are_trimmed_witness :
  starts_clean (title sample_values) /\ ends_clean (title sample_values)
  /\ starts_clean (url sample_values) /\ ends_clean (url sample_values)
  /\ Js.length (title sample_values) <= Js.length (title padded_title_values)
  /\ Js.length (url sample_values) <= Js.length (url padded_title_values)
  /\ parsed sample_values = sample_values.
Proof.
  apply (validated_strings_are_trimmed sample_canParse padded_title_values
           sample_values).
  vm_compute. reflexivity.
Defined.

(** X2: the title is trimmed after its checks have run. A title of 1 to 256
    white-space characters raises no error on the title, and if the record is
    accepted, the validated title is empty and the validated record is one
    the schema itself rejects. *)
Theorem blank_title_is_accepted (URL_canParse : JsString -> bool)
    (r : MintFormValues) :
  blank (title r) -> 1 <= Js.length (title r) <= 256 ->
  errors_on URL_canParse "title" r = []
  /\ forall v, safeParse (schema URL_canParse) r = success v ->
               title v = [] /\ isValid URL_canParse v = false.
Proof.
  intros Hb Hl. split.
  - rewrite errors_on_title. unfold title_schema, ZodString. simpl.
    destruct (Js.length (title r) <? 1) eqn:E1; [lia |].
    destruct (Js.length (title r) >? 256) eqn:E2; [lia |]. reflexivity.
  - intros v Hv. apply safeParse_success in Hv. subst v.
    assert (Ht : title (parsed r) = []) by (simpl; apply trim_blank; exact Hb).
    split; [exact Ht |].
    apply isValid_false_iff. unfold MintFormValues_rules, within.
    rewrite Ht. simpl. intros ([H _] & _). unfold Js.length in H. simpl in H. lia.
Qed.

Lemma blank_title_is_accepted_witness :
  errors_on sample_canParse "title" blank_title_values = []
  /\ forall v, safeParse (schema sample_canParse) blank_title_values = success v ->
               title v = [] /\ isValid sample_canParse v = false.
Proof.
  apply (blank_title_is_accepted sample_canParse blank_title_values).
  - repeat constructor.
  - vm_compute. split; discriminate.
Defined.

(** ** Validity and issues *)

Lemma isValid_dirty {A} (r : ParseReturn A) : Zod.isValid (dirty r) = false.
Proof. destruct r; reflexivity. Qed.

Lemma isValid_setValue {A B} (r : ParseReturn A) (v : B) :
  Zod.isValid (setValue r v) = Zod.isValid r.
Proof. destruct r; reflexivity. Qed.

Lemma ZodString_checks_coherent U checks p r data :
  Zod.isValid (snd (ZodString_checks U checks p r data)) = true
  <-> Zod.isValid r = true /\ fst (ZodString_checks U checks p r data) = [].
Proof.
  revert r data. induction checks as [| check rest IH]; intros r data; simpl.
  - rewrite isValid_setValue. tauto.
  - destruct check as [value msg | value msg | msg |]; try apply IH;
      match goal with |- context [if ?c then _ else _] => destruct c end;
      try apply IH;
      specialize (IH (dirty r) data); rewrite isValid_dirty in IH;
      destruct (ZodString_checks U rest p (dirty r) data) as [issues r'];
      simpl in *;
      (split;
       [ intros H; apply IH in H; destruct H; discriminate
       | intros [_ H]; discriminate ]).
Qed.

Lemma ZodNumber_checks_coherent checks p r x :
  Zod.isValid (snd (ZodNumber_checks checks p r x)) = true
  <-> Zod.isValid r = true /\ fst (ZodNumber_checks checks p r x) = [].
Proof.
  revert r. induction checks as [| check rest IH]; intros r; simpl.
  - tauto.
  - destruct (failsNumberCheck check x) as [i |]; [| apply IH].
    specialize (IH (dirty r)). rewrite isValid_dirty in IH.
    destruct (ZodNumber_checks rest p (dirty r) x) as [issues r'].
    simpl in *. split.
    + intros H. apply IH in H. destruct H. discriminate.
    + intros [_ H]. discriminate.
Qed.

Lemma ZodString_coherent U checks p data :
  Zod.isValid (snd (ZodString U checks p data)) = true
  <-> fst (ZodString U checks p data) = [].
Proof.
  unfold ZodString. rewrite ZodString_checks_coherent. simpl. tauto.
Qed.

Lemma tokenCount_schema_coherent p t :
  Zod.isValid (snd (tokenCount_schema p t)) = true
  <-> fst (tokenCount_schema p t) = [].
Proof.
  unfold tokenCount_schema, ZodNumber.
  destruct t as [[| neg | q] |];
    try (simpl; split; discriminate);
    rewrite ZodNumber_checks_coherent; simpl; tauto.
Qed.

Lemma schemaDates_coherent r :
  Zod.isValid (snd (schemaDates [] r)) = true <-> fst (schemaDates [] r) = [].
Proof.
  rewrite schemaDates_issues. unfold schemaDates. rewrite snd_refine.
  unfold key, ap, pure; simpl.
  rewrite dateStart_schema_result, dateEnd_schema_result.
  unfold date_result, date_issues, order_issues, Date_ge.
  destruct (dateStart r) as [[| a] |], (dateEnd r) as [[| b] |]; simpl;
    try (split; discriminate);
    repeat match goal with
           | |- context [if ?t <? Date_1900_01_01 then _ else _] =>
               destruct (t <? Date_1900_01_01)
           end; simpl; try (split; discriminate);
    destruct (b >=? a); simpl; split; try discriminate; reflexivity.
Qed.

Lemma app_nil_iff {A} (l l' : list A) : l ++ l' = [] <-> l = [] /\ l' = [].
Proof.
  split; [apply app_eq_nil | intros [-> ->]; reflexivity].
Qed.

(** X3: the schema accepts a record exactly when it raises no issue: a
    record is rejected exactly when the schema reports some issue for it. *)
Theorem valid_iff_no_issue (URL_canParse : JsString -> bool)
    (r : MintFormValues) :
  isValid URL_canParse r = true <-> issues_of URL_canParse r = [].
Proof.
  rewrite isValid_true_iff, issues_of_fields.
  unfold schema, intersection. rewrite !isValid_ap.
  unfold schemaCommon. rewrite !isValid_ap. unfold key.
  simpl (Zod.isValid (snd (pure _))).
  simpl (Zod.isValid (snd (isPublic_schema _ _))).
  rewrite !andb_true_iff, !app_nil_iff.
  unfold title_schema, description_schema, location_schema, url_schema.
  rewrite !ZodString_coherent, tokenCount_schema_coherent, schemaDates_coherent.
  simpl app. tauto.
Qed.

(** ** The errors of each field *)

Lemma errors_on_description U r :
  errors_on U "description" r
  = fst (description_schema U ["description"%string] (description r)).
Proof. filter_fields. reflexivity. Qed.

Lemma errors_on_tokenCount U r :
  errors_on U "tokenCount" r
  = fst (tokenCount_schema ["tokenCount"%string] (tokenCount r)).
Proof. filter_fields. reflexivity. Qed.

Lemma length_nonneg (s : JsString) : 0 <= Js.length s.
Proof. unfold Js.length. lia. Qed.

(** X4: the errors of the three text fields. An empty title, description or
    location has the field's "required" error and nothing else; one longer
    than 256, 10000 and 256 characters has the field's "must be less than"
    error and nothing else; any other value, one of exactly the maximum
    length included, has no error. *)
Theorem text_field_errors (URL_canParse : JsString -> bool)
    (r : MintFormValues) :
  errors_on URL_canParse "title" r
  = (if Js.length (title r) =? 0
     then [required "title" "Title is required"]
     else if 256 <? Js.length (title r)
          then [too_long "title" "Title must be less than 256 characters"]
          else [])
  /\ errors_on URL_canParse "description" r
     = (if Js.length (description r) =? 0
        then [required "description" "Description is required"]
        else if 10000 <? Js.length (description r)
             then [too_long "description"
                     "Description must be less than 10000 characters"]
             else [])
  /\ errors_on URL_canParse "location" r
     = (if Js.length (location r) =? 0
        then [required "location" "Location is required"]
        else if 256 <? Js.length (location r)
             then [too_long "location"
                     "Location must be less than 256 characters"]
             else []).
Proof.
  rewrite errors_on_title, errors_on_description, errors_on_location.
  unfold title_schema, description_schema, location_schema, ZodString.
  pose proof (length_nonneg (title r)).
  pose proof (length_nonneg (description r)).
  pose proof (length_nonneg (location r)).
  cbn -[Z.ltb Z.gtb Z.eqb Js.length].
  repeat split;
    match goal with
    | |- context [?l >? ?m] =>
        destruct (l <? 1) eqn:E1, (l >? m) eqn:E2, (l =? 0) eqn:E3,
                 (m <? l) eqn:E4
    end; simpl; try reflexivity; lia.
Qed.

(** X5: the errors of the url field. An empty url has the "URL is required"
    error first, so that is the text shown; a url the platform's parser does
    not accept has the "URL is invalid" error; the field has no error exactly
    when the url is non-empty and parses. The checks see the url as entered,
    before it is trimmed. *)
Theorem url_field_errors (URL_canParse : JsString -> bool)
    (r : MintFormValues) :
  errors_on URL_canParse "url" r
  = (if Js.length (url r) =? 0 then [required "url" "URL is required"] else [])
    ++ (if URL_canParse (url r) then [] else [invalid_url]).
Proof.
  rewrite errors_on_url. unfold url_schema, ZodString.
  pose proof (length_nonneg (url r)).
  cbn -[Z.ltb Z.eqb Js.length].
  destruct (Js.length (url r) <? 1) eqn:E1,
           (Js.length (url r) =? 0) eqn:E3,
           (URL_canParse (url r)); simpl; try reflexivity; lia.
Qed.

Lemma ZodNumber_checks_fails check rest p r x i :
  failsNumberCheck check x = Some i ->
  fst (ZodNumber_checks (check :: rest) p r x)
  = at_path p i :: fst (ZodNumber_checks rest p (dirty r) x).
Proof.
  intros H. simpl. rewrite H.
  destruct (ZodNumber_checks rest p (dirty r) x). reflexivity.
Qed.

(** X6: the errors of the token count. An empty field ([undefined], or NaN as
    the number input delivers it) has one error, that it is not a number, and
    no other check runs; a whole number has the "not positive" error when it
    is 0 or less, the "less than or equal to 200" error when it is above 200,
    and no error from 1 to 200; a number that is not whole has the "not an
    integer" error first. *)
Theorem tokenCount_field_errors (URL_canParse : JsString -> bool)
    (r : MintFormValues) :
  (tokenCount r = None \/ tokenCount r = Some NaN ->
   errors_on URL_canParse "tokenCount" r = [not_a_number])
  /\ (forall z, tokenCount r = number z ->
      errors_on URL_canParse "tokenCount" r
      = if z <=? 0 then [not_positive]
        else if 200 <? z then [too_many] else [])
  /\ (forall x, tokenCount r = Some x -> isInteger x = false ->
      exists rest,
        errors_on URL_canParse "tokenCount" r = not_a_number :: rest).
Proof.
  rewrite errors_on_tokenCount. unfold tokenCount_schema, ZodNumber.
  split; [| split].
  - intros [H | H]; rewrite H; reflexivity.
  - intros z H. rewrite H. unfold number.
    cbn -[isInteger le_bound gt_bound].
    replace (isInteger (Finite (inject_Z z))) with true
      by (simpl; rewrite Z.mod_1_r; reflexivity).
    unfold le_bound, gt_bound.
    rewrite !(Qle_bool_inject_l (inject_Z z) z) by reflexivity.
    destruct (z <=? 0) eqn:E1, (z <=? 200) eqn:E2, (200 <? z) eqn:E3;
      simpl; try reflexivity; lia.
  - intros x H Hi. rewrite H.
    assert (Hf : failsNumberCheck Zod.int x
                 = Some (mkIssue invalid_type [] None))
      by (unfold Zod.int; simpl; rewrite Hi; reflexivity).
    destruct x as [| neg | q].
    + exists []. reflexivity.
    + rewrite (ZodNumber_checks_fails _ _ _ _ _ _ Hf).
      eexists. reflexivity.
    + rewrite (ZodNumber_checks_fails _ _ _ _ _ _ Hf).
      eexists. reflexivity.
Qed.

Lemma tokenCount_field_errors_witness :
  exists rest,
    errors_on sample_canParse "tokenCount" half_token_values
    = not_a_number :: rest.
Proof.
  destruct (tokenCount_field_errors sample_canParse half_token_values)
    as (_ & _ & H).
  apply (H (Finite (1 # 2))); reflexivity.
Defined.

(** X7: a [Date] object that holds no date (an Invalid Date) is rejected with
    an invalid-date error on its own field, and it aborts the validation of
    the dates, so the ordering check does not run: the other date field shows
    only its own errors, never the ordering error. *)
Theorem invalid_date_is_rejected (URL_canParse : JsString -> bool)
    (r : MintFormValues) :
  (dateStart r = Some InvalidDate ->
   isValid URL_canParse r = false
   /\ errors_on URL_canParse "dateStart" r = [not_a_date "dateStart"]
   /\ errors_on URL_canParse "dateEnd" r
      = date_issues "End Date is required" ["dateEnd"%string] (dateEnd r))
  /\ (dateEnd r = Some InvalidDate ->
      isValid URL_canParse r = false
      /\ errors_on URL_canParse "dateEnd" r = [not_a_date "dateEnd"]
      /\ errors_on URL_canParse "dateStart" r
         = date_issues "Start Date is required" ["dateStart"%string]
             (dateStart r)).
Proof.
  split; intros H;
    (split;
     [ apply isValid_false_iff; unfold MintFormValues_rules, date_rule;
       rewrite H; intros (_ & _ & _ & _ & _ & [s [Hs _]] & [e [He _]] & _);
       discriminate
     | rewrite errors_on_dateStart, errors_on_dateEnd, H; simpl ]).
  - split; [reflexivity |]. unfold order_issues.
    destruct (dateEnd r) as [[| b] |]; simpl; rewrite ?app_nil_r; reflexivity.
  - split; [| reflexivity]. unfold order_issues.
    destruct (dateStart r) as [[| a] |]; reflexivity.
Qed.

Lemma invalid_date_is_rejected_witness :
  isValid sample_canParse invalid_start_values = false
  /\ errors_on sample_canParse "dateStart" invalid_start_values
     = [not_a_date "dateStart"]
  /\ errors_on sample_canParse "dateEnd" invalid_start_values
     = date_issues "End Date is required" ["dateEnd"%string]
         (dateEnd invalid_start_values).
Proof.
  destruct (invalid_date_is_rejected sample_canParse invalid_start_values)
    as [H _].
  apply H. reflexivity.
Defined.

(** X8: the error the resolver returns for the end date of a record, the
    first issue on [dateEnd]. For a missing end date it is "End Date is
    required", ahead of the ordering error raised with it; for an end date
    before 1900-01-01 it is "Date is too far back"; for an end date from
    1900-01-01 on it is the ordering error "End Date must be later than Start
    Date" when the start date is missing as well as when it is later than the
    end date, and there is none when the start date is the same or an earlier
    day. *)
Theorem dateEnd_resolver_error (URL_canParse : JsString -> bool)
    (r : MintFormValues) :
  (dateEnd r = None ->
   resolver_error URL_canParse "dateEnd" r
   = Some (required_issue ["dateEnd"%string] "End Date is required"))
  /\ (forall b, dateEnd r = Some (DateAt b) -> b < Date_1900_01_01 ->
      resolver_error URL_canParse "dateEnd" r
      = Some (too_far_back ["dateEnd"%string]))
  /\ (forall b, dateEnd r = Some (DateAt b) -> Date_1900_01_01 <= b ->
      (dateStart r = None ->
       resolver_error URL_canParse "dateEnd" r = Some order_issue)
      /\ (forall a, dateStart r = Some (DateAt a) ->
          resolver_error URL_canParse "dateEnd" r
          = if a <=? b then None else Some order_issue)).
Proof.
  unfold resolver_error. rewrite errors_on_dateEnd.
  split; [| split].
  - intros H. rewrite H. reflexivity.
  - intros b H Hb. rewrite H. simpl.
    apply Z.ltb_lt in Hb. rewrite Hb. reflexivity.
  - intros b H Hb. rewrite H. simpl.
    destruct (b <? Date_1900_01_01) eqn:E; [lia |]. simpl.
    split.
    + intros Hs. rewrite Hs. reflexivity.
    + intros a Hs. rewrite Hs. simpl. rewrite Z.geb_leb.
      destruct (a <=? b); reflexivity.
Qed.

Lemma dateEnd_resolver_error_witness :
  resolver_error sample_canParse "dateEnd" no_start_values = Some order_issue.
Proof.
  destruct (dateEnd_resolver_error sample_canParse no_start_values)
    as (_ & _ & H).
  apply (H 1700000000000); [reflexivity | vm_compute; discriminate | reflexivity].
Defined.

(** ** The handler's exceptions *)

(** X9: the one exception the submit handler lets escape is the [TypeError]
    its own [catch] block raises while it builds the message: for an axios
    error whose response has a null or undefined payload, and for a null or
    undefined rejection. Every other rejection of the create-event call ends
    in the [catch], a resolved call throws nothing, and without the
    preconditions no call is made and nothing is thrown. The close and cancel
    handlers throw nothing. *)
Theorem onSubmit_uncaught (h : Hooks) (v : MintFormValues)
    (s : Settlement) (reason : option string) :
  uncaught (onSubmit h v) s
  = (if canCreate h
     then match s with
          | Resolved _ => None
          | Rejected err =>
              match failure_text err with
              | Some _ => None
              | None => Some TypeError
              end
          end
     else None)
  /\ uncaught (handleClose reason) s = None
  /\ uncaught handleCancel s = None.
Proof.
  split; [| split; [| reflexivity]].
  - unfold onSubmit, canCreate.
    destruct (account h) as [a |], (networkId h) as [n |], (jwt h) as [t |];
      try reflexivity.
    destruct (String_truthy a && Number_truthy n && String_truthy t);
      [| reflexivity].
    destruct s as [res | [[resp |] msg | msg | msg | [|]]]; reflexivity.
  - unfold handleClose. destruct (reason_is reason "backdropClick"); reflexivity.
Qed.

(** ** Requests, logs, notifications and the loading flag along a run *)

Lemma debug_logs_app t u : debug_logs (t ++ u) = debug_logs t ++ debug_logs u.
Proof. apply filter_app. Qed.

Ltac count_calls :=
  cbn [state trace suspended loading perform exec];
  rewrite ?requests_app, ?notifications_app, ?debug_logs_app;
  cbn [requests notifications debug_logs filter];
  rewrite ?app_nil_r, ?length_app;
  cbn [List.length].

Lemma onSubmit_accounted h v m :
  suspended m = None ->
  List.length (requests (trace m)) = List.length (debug_logs (trace m)) ->
  (List.length (notifications (trace m))
   <= List.length (debug_logs (trace m)))%nat ->
  accounted (exec (onSubmit h v) m).
Proof.
  intros Hs Hc Hn. unfold onSubmit, accounted.
  destruct (account h) as [a |], (networkId h) as [n |], (jwt h) as [t |];
    try (cbn -[requests notifications debug_logs]; rewrite Hs;
         split; [reflexivity | split; count_calls; lia]).
  destruct (String_truthy a && Number_truthy n && String_truthy t);
    [| cbn -[requests notifications debug_logs]; rewrite Hs;
       split; [reflexivity | split; count_calls; lia]].
  cbn -[requests notifications debug_logs].
  split; [reflexivity |]. split; [| split; count_calls; lia].
  intros [res | [[resp |] msg | msg | msg | [|]]] m0;
    cbn -[requests notifications debug_logs];
    (split; [reflexivity |]); (split; [reflexivity |]);
    count_calls; (split; [try reflexivity |]); try (split; lia);
    rewrite ?app_nil_r; try reflexivity.
Qed.

Lemma accounted_idle m :
  accounted m -> loading (state m) = false -> suspended m = None.
Proof.
  unfold accounted. destruct (suspended m) as [k |]; [| reflexivity].
  intros [H _] Hl. congruence.
Qed.

Lemma dispatch_accounted U h g m : accounted m -> accounted (dispatch U h g m).
Proof.
  intros Hinv. destruct (loading (state m)) eqn:Hl.
  - rewrite (dispatch_loading U h g m Hl). exact Hinv.
  - pose proof (accounted_idle m Hinv Hl) as Hs.
    assert (Hc : List.length (requests (trace m))
                 = List.length (debug_logs (trace m))
                 /\ (List.length (notifications (trace m))
                     <= List.length (debug_logs (trace m)))%nat).
    { unfold accounted in Hinv. rewrite Hs in Hinv. apply Hinv. }
    destruct Hc as [Hc Hn].
    unfold dispatch. destruct (open (state m)); simpl; [| exact Hinv].
    destruct g as [| | c | c]; try exact Hinv.
    + destruct (disabled U h (state m) c); [exact Hinv |].
      destruct c as [| f | |]; try exact Hinv.
      * unfold accounted. cbn -[requests notifications debug_logs].
        rewrite Hs. split; [exact Hl | split; count_calls; lia].
      * unfold accounted. cbn -[requests notifications debug_logs].
        rewrite Hs. split; [exact Hl | split; count_calls; lia].
      * unfold onClick, handleSubmit.
        destruct (safeParse (schema U) (values (state m))) as [v |];
          [| exact Hinv].
        apply onSubmit_accounted; assumption.
    + unfold disabled. rewrite Hl. unfold accounted. simpl. rewrite Hs.
      split; [reflexivity | split; [exact Hc | exact Hn]].
Qed.

Lemma settle_accounted s m : accounted m -> accounted (settle s m).
Proof.
  unfold settle, accounted at 1. destruct (suspended m) as [k |] eqn:Hs.
  - intros (_ & Hk & Hc & Hn). unfold accounted.
    destruct (Hk s {| state := state m; trace := trace m; suspended := None |})
      as (E1 & E2 & E3 & E4 & E5).
    rewrite E1. simpl in *. split; [exact E2 |]. rewrite E3, E4.
    split; [exact Hc | lia].
  - intros H. unfold accounted. rewrite Hs. exact H.
Qed.

Lemma reachable_accounted U m : reachable U m -> accounted m.
Proof.
  induction 1 as [d | e m Hm IH].
  - repeat split. simpl. lia.
  - destruct e as [h g | s | d]; simpl.
    + apply dispatch_accounted. exact IH.
    + apply settle_accounted. exact IH.
    + exact IH.
Qed.

Lemma reachable_run_steps U es m :
  reachable U m -> reachable U (run_steps U es m).
Proof.
  unfold run_steps. revert m. induction es as [| e es IH]; intros m Hm; simpl.
  - exact Hm.
  - apply IH. constructor. exact Hm.
Qed.

Lemma sample_reached_reachable : reachable sample_canParse sample_reached.
Proof. apply reachable_run_steps. constructor. Qed.

(** X10: in every machine the component can reach, the loading flag is set
    exactly while a create-event call is awaiting its settlement: the flag is
    never left set after the call has settled or when no call was made, and
    never cleared while a call is outstanding. *)
Theorem loading_marks_in_flight (URL_canParse : JsString -> bool)
    (m : Machine) :
  reachable URL_canParse m ->
  (loading (state m) = true <-> suspended m <> None).
Proof.
  intros Hr. apply reachable_accounted in Hr. unfold accounted in Hr.
  destruct (suspended m) as [k |].
  - destruct Hr as [Hl _]. split; [discriminate | intros _; exact Hl].
  - destruct Hr as [Hl _]. split; [congruence | intros H; contradiction].
Qed.

Lemma loading_marks_in_flight_witness :
  loading (state sample_reached) = true <-> suspended sample_reached <> None.
Proof.
  apply (loading_marks_in_flight sample_canParse sample_reached).
  exact sample_reached_reachable.
Defined.

(** X11: in every machine the component can reach, the create-event calls
    issued are as many as the settlements logged, plus the one call still in
    flight, if any, and the notifications shown are never more than the calls
    that have settled. So at most one call is in flight at a time, each
    settled call is logged once and answered by at most one notification, and
    nothing else notifies. *)
Theorem notifications_answer_settled_calls (URL_canParse : JsString -> bool)
    (m : Machine) :
  reachable URL_canParse m ->
  List.length (requests (trace m))
  = (List.length (debug_logs (trace m))
     + match suspended m with Some _ => 1 | None => 0 end)%nat
  /\ (List.length (notifications (trace m))
      <= List.length (debug_logs (trace m)))%nat.
Proof.
  intros Hr. apply reachable_accounted in Hr. unfold accounted in Hr.
  destruct (suspended m) as [k |].
  - destruct Hr as (_ & _ & Hc & Hn). split; lia.
  - destruct Hr as (_ & Hc & Hn). split; lia.
Qed.

Lemma notifications_answer_settled_calls_witness :
  List.length (requests (trace sample_reached))
  = (List.length (debug_logs (trace sample_reached))
     + match suspended sample_reached with Some _ => 1 | None => 0 end)%nat
  /\ (List.length (notifications (trace sample_reached))
      <= List.length (debug_logs (trace sample_reached)))%nat.
Proof.
  apply (notifications_answer_settled_calls sample_canParse sample_reached).
  exact sample_reached_reachable.
Defined.

Example sample_reached_in_flight :
  requests (trace sample_reached)
  = [ API_event_create (str "session-token")
        (mkRequest 1 (Some (Finite 50)) (str "Launch party")
           (str "An evening with the team") (str "Berlin") sample_url
           (Some sample_date) (Some sample_date) false) ]
  /\ loading (state sample_reached) = true.
Proof. vm_compute. split; reflexivity. Qed.

(** ** After a submission: reset form, kept form *)

Lemma isValid_defaultValues U : isValid U defaultValues = false.
Proof.
  apply isValid_false_iff. unfold MintFormValues_rules, within. simpl.
  intros ([H _] & _). unfold Js.length in H. simpl in H. lia.
Qed.

Lemma disabled_create_reset U h st :
  values st = defaultValues -> disabled U h st CreateButton = true.
Proof.
  intros H. unfold disabled. rewrite H, isValid_defaultValues.
  destruct (loading st), (Boolean (account h)); reflexivity.
Qed.

Lemma canCreate_true h :
  canCreate h = true ->
  exists a n token,
    account h = Some a /\ networkId h = Some n /\ jwt h = Some token
    /\ String_truthy a && Number_truthy n && String_truthy token = true.
Proof.
  unfold canCreate.
  destruct (account h) as [a |], (networkId h) as [n |], (jwt h) as [t |];
    try discriminate.
  intros H. exists a, n, t. auto.
Qed.

Lemma dispatch_create_disabled U h m :
  disabled U h (state m) CreateButton = true ->
  dispatch U h (Click CreateButton) m = m.
Proof.
  intros H. unfold dispatch. rewrite H.
  destruct (open (state m)); reflexivity.
Qed.

(** X12: once the form has been reset, by Cancel or by a successful
    submission, its record is the default one, which the schema rejects; so
    whoever is connected, the Create button is disabled and, when the dialog
    is opened again, a click on it does nothing: there is no second
    submission of a record already sent. *)
Theorem reset_disables_create (URL_canParse : JsString -> bool)
    (h h' : Hooks) (m : Machine) (result : MintResult) :
  (disabled URL_canParse h' (state (exec handleCancel m)) CreateButton = true
   /\ dispatch URL_canParse h' (Click CreateButton) (reopen (exec handleCancel m))
      = reopen (exec handleCancel m))
  /\ (isValid URL_canParse (values (state m)) = true -> canCreate h = true ->
      let m2 := settle (Resolved result) (submit URL_canParse h m) in
      disabled URL_canParse h' (state m2) CreateButton = true
      /\ dispatch URL_canParse h' (Click CreateButton) (reopen m2) = reopen m2).
Proof.
  split.
  - split; [apply disabled_create_reset; reflexivity |].
    apply dispatch_create_disabled, disabled_create_reset. reflexivity.
  - intros Hv Hg m2. subst m2.
    apply canCreate_true in Hg as (a & n & t & Ha & Hn & Ht & Hg).
    rewrite (submit_valid _ _ _ Hv). unfold onSubmit.
    rewrite Ha, Hn, Ht, Hg. unfold settle.
    cbn -[parsed disabled dispatch reopen].
    split; [apply disabled_create_reset; reflexivity |].
    apply dispatch_create_disabled, disabled_create_reset. reflexivity.
Qed.

Lemma reset_disables_create_witness :
  disabled sample_canParse sample_hooks
    (state (settle (Resolved {| eventId := 42 |})
              (submit sample_canParse sample_hooks sample_machine)))
    CreateButton = true
  /\ dispatch sample_canParse sample_hooks (Click CreateButton)
       (reopen (settle (Resolved {| eventId := 42 |})
                  (submit sample_canParse sample_hooks sample_machine)))
     = reopen (settle (Resolved {| eventId := 42 |})
                 (submit sample_canParse sample_hooks sample_machine)).
Proof.
  destruct (reset_disables_create sample_canParse sample_hooks sample_hooks
              sample_machine {| eventId := 42 |}) as [_ H].
  apply H; reflexivity.
Defined.

Lemma click_create_enabled U h m :
  isValid U (values (state m)) = true ->
  Boolean (account h) = true -> isAuthenticated h = true ->
  open (state m) = true -> loading (state m) = false ->
  dispatch U h (Click CreateButton) m
  = exec (onSubmit h (parsed (values (state m)))) m.
Proof.
  intros Hv Hb Hauth Ho Hl. unfold dispatch, disabled.
  rewrite Ho, Hl, Hb, Hv, Hauth. cbn [negb orb].
  unfold onClick, handleSubmit. rewrite (safeParse_isValid _ _ Hv).
  reflexivity.
Qed.

Lemma onSubmit_suspends h v m a n token :
  account h = Some a -> networkId h = Some n -> jwt h = Some token ->
  String_truthy a && Number_truthy n && String_truthy token = true ->
  exists k,
    exec (onSubmit h v) m
    = {| state := {| values := values (state m); loading := true;
                     activeDialog := activeDialog (state m) |};
         trace := trace m
                  ++ [ setLoading true;
                       API_event_create token
                         (mkRequest n (tokenCount v) (title v) (description v)
                            (location v) (url v) (dateStart v) (dateEnd v)
                            (negb (isPublic v))) ];
         suspended := Some k |}
    /\ forall err m0,
         exec (k (Rejected err)) m0
         = {| state := {| values := values (state m0); loading := false;
                          activeDialog := no_dialog |};
              trace := trace m0
                       ++ [console_debug] ++ failure_notification err
                       ++ [setLoading false; setActiveDialog no_dialog];
              suspended := suspended m0 |}.
Proof.
  intros Ha Hn Ht Hg. unfold onSubmit. rewrite Ha, Hn, Ht, Hg.
  eexists. split.
  - cbn. rewrite <- app_assoc. reflexivity.
  - intros [[resp |] msg | msg | msg | [|]] m0; cbn;
      rewrite <- !app_assoc; reflexivity.
Qed.

Lemma requests_failure_notification err :
  requests (failure_notification err) = [].
Proof.
  unfold failure_notification. destruct (failure_text err); reflexivity.
Qed.

(** X13: a failed submission can be tried again. With a valid record, the
    account, network identifier and session token present and the user
    authenticated, a click on Create in the open, idle dialog issues the
    create-event call; when the call fails, the dialog closes with the form
    as it was; and when the dialog is opened again, a second click on Create
    issues the same call again, with the loading flag set and the dialog
    open while it is in flight. *)
Theorem retry_after_failure (URL_canParse : JsString -> bool) (h : Hooks)
    (m : Machine) (err : Thrown) :
  isValid URL_canParse (values (state m)) = true ->
  canCreate h = true -> isAuthenticated h = true ->
  open (state m) = true -> loading (state m) = false ->
  let m1 := dispatch URL_canParse h (Click CreateButton) m in
  let m2 := settle (Rejected err) m1 in
  let m3 := dispatch URL_canParse h (Click CreateButton) (reopen m2) in
  exists token req,
    requests (trace m1) = requests (trace m) ++ [API_event_create token req]
    /\ open (state m2) = false
    /\ values (state m2) = values (state m)
    /\ requests (trace m3)
       = requests (trace m)
         ++ [API_event_create token req; API_event_create token req]
    /\ loading (state m3) = true
    /\ open (state m3) = true
    /\ suspended m3 <> None.
Proof.
  intros Hv Hg Hauth Ho Hl m1 m2 m3. subst m3 m2 m1.
  apply canCreate_true in Hg as (a & n & t & Ha & Hn & Ht & Hg).
  assert (Hb : Boolean (account h) = true).
  { rewrite Ha. simpl. destruct (String_truthy a); [reflexivity | discriminate]. }
  rewrite (click_create_enabled _ _ _ Hv Hb Hauth Ho Hl).
  remember (parsed (values (state m))) as v eqn:Ev.
  destruct (onSubmit_suspends h v m a n t Ha Hn Ht Hg) as (k & E1 & Hk).
  rewrite E1. unfold settle. cbn [suspended state trace].
  rewrite Hk. cbn [suspended state trace values].
  exists t, (mkRequest n (tokenCount v) (title v) (description v) (location v)
               (url v) (dateStart v) (dateEnd v) (negb (isPublic v))).
  split; [rewrite requests_app; reflexivity |].
  split; [reflexivity |]. split; [reflexivity |].
  rewrite click_create_enabled; try assumption; try reflexivity.
  unfold reopen. cbn [suspended state trace values]. rewrite <- Ev.
  match goal with
  | |- context [exec (onSubmit h v) ?m'] =>
      destruct (onSubmit_suspends h v m' a n t Ha Hn Ht Hg) as (k' & E2 & _)
  end.
  rewrite E2. cbn [suspended state trace values loading activeDialog].
  split.
  - rewrite <- !app_assoc, !requests_app, requests_failure_notification.
    simpl. rewrite ?app_nil_r. reflexivity.
  - repeat split. discriminate.
Qed.

Lemma retry_after_failure_witness :
  loading
    (state
       (dispatch sample_canParse sample_hooks (Click CreateButton)
          (reopen
             (settle (Rejected (OtherError (str "timeout")))
                (dispatch sample_canParse sample_hooks (Click CreateButton)
                   sample_machine)))))
  = true.
Proof.
  destruct (retry_after_failure sample_canParse sample_hooks sample_machine
              (OtherError (str "timeout")) eq_refl eq_refl eq_refl eq_refl
              eq_refl)
    as (token & req & _ & _ & _ & _ & H & _).
  exact H.
Defined.
